(** * CareerBuilderHelper: the agent pipeline of [agent.py]

    A shallow embedding of the Python program: the shared [CareerState]
    object, the seven agents, the sequential loop of
    [run_career_builder_helper] and the retry options built by
    [setup_adk_environment], followed by the properties of the
    specification that were checked against them. *)

From Stdlib Require Import String Ascii List Arith Lia.
From stdpp Require Import base strings gmap list.
From Equations Require Import Equations.
Import ListNotations.

Local Set Warnings "-register-all".

Local Open Scope string_scope.

(** ** Python values, exceptions and log records *)

(** The values the program stores in its state: [None], [str] and
    [dict] keyed by [str] (a dict keeps its insertion order). *)
Inductive pyval :=
| PNone
| PStr (s : string)
| PDict (items : list (string * pyval)).

(** Truth value of an object, as tested by [not x] and [x or y]. *)
Definition truthy (v : pyval) : bool :=
  match v with
  | PNone => false
  | PStr s => match s with EmptyString => false | String _ _ => true end
  | PDict items => match items with [] => false | _ :: _ => true end
  end.

(** The exceptions the code of [agent.py] can raise; all of them derive
    from [Exception]. [TypeError] records the operation that the value
    does not support: subscripting it, calling it, or assigning it to
    [__class__] or to [__dict__]. *)
Inductive unsupported := Subscript | Call | AsClass | AsDict.

Inductive exn :=
| TypeError (op : unsupported) (v : pyval)
| KeyError (key : string)
| AttributeError (attr : string)
| NotImplementedError (msg : string).

Inductive level := INFO | WARNING | ERROR | CRITICAL.

(** A log message is kept as the pieces of its f-string: literal text,
    and the objects and exceptions that the logging call formats. *)
Inductive piece :=
| Lit (s : string)
| Fmt (v : pyval)
| Exc (e : exn).

Record log_record := LogRecord {
  levelname : level;
  logger_name : string;
  message : list piece
}.

(** ** The world: the attributes of the single [CareerState] object that
    every agent shares, and the records emitted so far *)

Record world := World {
  attrs : gmap string pyval;
  log : list log_record
}.

Inductive outcome (A : Type) :=
| Returned (a : A)
| Raised (e : exn).
Arguments Returned {A} a.
Arguments Raised {A} e.

(** Computations that read and write the world and may raise. *)
Definition M (A : Type) : Type := world -> outcome A * world.

Definition ret {A} (a : A) : M A := fun w => (Returned a, w).

Definition raise {A} (e : exn) : M A := fun w => (Raised e, w).

Definition bind {A B} (c : M A) (k : A -> M B) : M B :=
  fun w =>
    match c w with
    | (Returned a, w') => k a w'
    | (Raised e, w') => (Raised e, w')
    end.

Declare Scope py_scope.
Delimit Scope py_scope with py.
Notation "'let*' x ':=' c 'in' k" := (bind c (fun x => k))
  (at level 10, x name, c at level 100, k at level 200) : py_scope.
Notation "c '>>' k" := (bind c (fun _ => k))
  (at level 65, right associativity) : py_scope.

Local Open Scope py_scope.

Fixpoint for_each {A} (l : list A) (body : A -> M unit) : M unit :=
  match l with
  | [] => ret tt
  | x :: rest => body x >> for_each rest body
  end.

(** [logging.getLogger(name).<level>(message)] *)
Definition emit (lvl : level) (logger : string) (msg : list piece) : M unit :=
  fun w => (Returned tt,
            World (attrs w) (log w ++ [LogRecord lvl logger msg])).

(** The module-level logger. *)
Definition logger : string := "CareerBuilderHelper".

(** ** Dicts *)

(** [items.get(key)] *)
Fixpoint dict_get (items : list (string * pyval)) (key : string) : option pyval :=
  match items with
  | [] => None
  | (k, v) :: rest => if String.eqb k key then Some v else dict_get rest key
  end.

(** [items[key] = value]: the value of a key that is present is
    replaced where it stands, a new key goes to the end. *)
Fixpoint dict_set (items : list (string * pyval)) (key : string) (value : pyval)
    : list (string * pyval) :=
  match items with
  | [] => [(key, value)]
  | (k, v) :: rest =>
      if String.eqb k key then (k, value) :: rest
      else (k, v) :: dict_set rest key value
  end.

(** ** CareerState *)

Module CareerState.

(** The attributes that [__init__] assigns. *)
Definition fields : list string :=
  ["interest_area"; "suggested_streams"; "user_location"; "target_stream";
   "college_results"; "criteria_details"; "reviewer_notes"; "final_summary"].

(** The names of the class: those of its body (the docstring and the
    two methods) and those every class statement adds. An instance
    finds them through its class. *)
Definition class_namespace : list string :=
  ["__module__"; "__doc__"; "__init__"; "update_state"; "__dict__";
   "__weakref__"].

(** The names that an instance inherits from [object] (CPython 3.11;
    the names that other versions add or lack all begin with two
    underscores). *)
Definition object_namespace : list string :=
  ["__class__"; "__delattr__"; "__dir__"; "__doc__"; "__eq__"; "__format__";
   "__ge__"; "__getattribute__"; "__getstate__"; "__gt__"; "__hash__";
   "__init__"; "__init_subclass__"; "__le__"; "__lt__"; "__ne__"; "__new__";
   "__reduce__"; "__reduce_ex__"; "__repr__"; "__setattr__"; "__sizeof__";
   "__str__"; "__subclasshook__"].

Definition __init__ : gmap string pyval :=
  <["final_summary" := PNone]>
  (<["reviewer_notes" := PNone]>
  (<["criteria_details" := PNone]>
  (<["college_results" := PNone]>
  (<["target_stream" := PNone]>
  (<["user_location" := PNone]>
  (<["suggested_streams" := PNone]>
  (<["interest_area" := PNone]> ∅))))))).

(** [hasattr(self, key)]: an instance attribute, a name of the class,
    or a name inherited from [object]. *)
Definition hasattr (key : string) : M bool :=
  fun w => (Returned (bool_decide (is_Some (attrs w !! key))
                      || bool_decide (key ∈ class_namespace)
                      || bool_decide (key ∈ object_namespace)), w).

(** [setattr(self, key, value)]. Three names are data descriptors of
    the type: [__class__] takes classes only, and no value of this
    model is one; [__weakref__] cannot be written; [__dict__] takes a
    dict, which becomes the instance dictionary, in place of the old
    one. Under every other name the value lands in the instance
    dictionary. *)
Definition setattr (key : string) (value : pyval) : M unit :=
  fun w =>
    if String.eqb key "__class__" then (Raised (TypeError AsClass value), w)
    else if String.eqb key "__weakref__" then (Raised (AttributeError key), w)
    else if String.eqb key "__dict__" then
      match value with
      | PDict items => (Returned tt, World (list_to_map items) (log w))
      | _ => (Raised (TypeError AsDict value), w)
      end
    else (Returned tt, World (<[key := value]> (attrs w)) (log w)).

(** [self.<name>] for a data attribute. *)
Definition getattr (name : string) : M pyval :=
  fun w =>
    match attrs w !! name with
    | Some v => (Returned v, w)
    | None => (Raised (AttributeError name), w)
    end.

(** A dict that is passed as [__dict__] is the instance dictionary from
    then on, the very object: the entries that follow it in the call
    are tested against it and written into it, until one of them raises
    or replaces the instance dictionary again. [written_through items
    later] is that dict when the call has gone through [later]. *)
Fixpoint written_through (items later : list (string * pyval))
    : list (string * pyval) :=
  match later with
  | [] => items
  | (key, value) :: rest =>
      if String.eqb key "__class__" || String.eqb key "__weakref__"
         || String.eqb key "__dict__"
      then items
      else if bool_decide (is_Some (dict_get items key))
              || bool_decide (key ∈ class_namespace)
              || bool_decide (key ∈ object_namespace)
      then written_through (dict_set items key value) rest
      else written_through items rest
  end.

(** [kwargs] as it reads when the loop is over: the values are the
    objects that were passed, and the one that has become the instance
    dictionary shows what was written into it since. *)
Fixpoint shown (kwargs : list (string * pyval)) : list (string * pyval) :=
  match kwargs with
  | [] => []
  | (key, value) :: rest =>
      (key, match value with
            | PDict items =>
                if String.eqb key "__dict__"
                then PDict (written_through items rest) else value
            | _ => value
            end) :: shown rest
  end.

(** [kwargs] is the dict of the keyword arguments, in the order of the
    call, each value an object of its own; a [setattr] that raises ends
    the call there. *)
Definition update_state (kwargs : list (string * pyval)) : M unit :=
  for_each kwargs (fun '(key, value) =>
    let* known := hasattr key in
    if known then setattr key value
    else emit WARNING logger
           [Lit "Attempted to set unknown state key: "; Lit key]) >>
  emit INFO logger [Lit "State updated: "; Fmt (PDict (shown kwargs))].

(** [self.state.update_state] as the agents call it: the
    attribute is looked up on the instance first, where only
    non-callable values can be stored. *)
Definition call_update_state (kwargs : list (string * pyval)) : M unit :=
  fun w =>
    match attrs w !! "update_state" with
    | Some v => (Raised (TypeError Call v), w)
    | None => update_state kwargs w
    end.

End CareerState.

(** A name that does not begin with two underscores: none of the names
    that the interpreter itself gives to an object. *)
Definition ordinary (key : string) : bool := negb (String.prefix "__" key).

(** ** Subscripting and formatting *)

(** [v[key]] with a [str] key: only a dict supports it. *)
Definition getitem (v : pyval) (key : string) : outcome pyval :=
  match v with
  | PDict items =>
      match dict_get items key with
      | Some x => Returned x
      | None => Raised (KeyError key)
      end
  | _ => Raised (TypeError Subscript v)
  end.

Definition subscript (v : pyval) (key : string) : M pyval :=
  fun w => (getitem v key, w).

Definition LF : string := String "010"%char EmptyString.

Section Pipeline.

(** [repr] of a dict is the interpreter's; the program never defines it. *)
Variable py_repr : pyval -> string.

(** A replacement field of an f-string, and the argument of [print]. *)
Definition py_format (v : pyval) : string :=
  match v with
  | PNone => "None"
  | PStr s => s
  | PDict _ => py_repr v
  end.

(** ** Agents *)

(** An agent: its name and its [execute] method. The state it holds
    is the shared object of the world, its logger is [ADK.<name>]. *)
Record MockAgent := Agent {
  name : string;
  execute : M string
}.

Definition agent_logger (name : string) : string := "ADK." ++ name.

Import CareerState.

(** The base class. *)
Definition MockAgent_execute : M string :=
  raise (NotImplementedError "Subclasses must implement the execute method.").

Definition mock_interest : string := "Biotechnology and sustainable energy".

Definition InterestAgent_execute (name : string) : M string :=
  call_update_state [("interest_area", PStr mock_interest)] >>
  emit INFO (agent_logger name)
    [Lit "Captured user interest: "; Lit mock_interest] >>
  ret "NEXT_STATE".

Definition mock_streams : string :=
  "1. Applied Biological Sciences (Focus on Bio-engineering), " ++
  "2. Environmental Science and Policy, " ++
  "3. Chemical Engineering with a focus on Renewable Fuels.".

Definition StreamResearchAgent_execute (name : string) : M string :=
  let* interest := getattr "interest_area" in
  if negb (truthy interest) then
    emit ERROR (agent_logger name)
      [Lit "Interest area missing. Cannot research streams."] >>
    ret "ERROR_STATE"
  else
    call_update_state [("suggested_streams", PStr mock_streams)] >>
    emit INFO (agent_logger name)
      [Lit "Suggested streams: "; Lit mock_streams] >>
    ret "AWAIT_SELECTION".

Definition mock_location : pyval :=
  PDict [("state", PStr "California"); ("city", PStr "Berkeley")].

Definition mock_selection : string :=
  "Applied Biological Sciences (Focus on Bio-engineering)".

Definition LocationAgent_execute (name : string) : M string :=
  let* streams := getattr "suggested_streams" in
  emit INFO (agent_logger name) [Lit "Suggested Streams: "; Fmt streams] >>
  call_update_state
    [("user_location", mock_location); ("target_stream", PStr mock_selection)] >>
  let* city := subscript mock_location "city" in
  let* state := subscript mock_location "state" in
  emit INFO (agent_logger name)
    [Lit "User selected: "; Lit mock_selection; Lit " in "; Fmt city;
     Lit ", "; Fmt state] >>
  ret "NEXT_STATE".

Definition mock_colleges : string :=
  "1. University of California, Berkeley (Bioengineering), " ++
  "2. Stanford University (Sustainable Science and Tech), " ++
  "3. UC Davis (Applied Biology).".

Definition CollegeResearchAgent_execute (name : string) : M string :=
  let* stream := getattr "target_stream" in
  let* location := getattr "user_location" in
  if negb (truthy stream) || negb (truthy location) then
    emit ERROR (agent_logger name)
      [Lit "Stream or Location missing. Cannot research colleges."] >>
    ret "ERROR_STATE"
  else
    (* search_query *)
    let* city := subscript location "city" in
    let* state := subscript location "state" in
    call_update_state [("college_results", PStr mock_colleges)] >>
    emit INFO (agent_logger name)
      [Lit "Found colleges: "; Lit mock_colleges] >>
    ret "NEXT_STATE".

Definition mock_criteria : string :=
  "UC Berkeley: GPA 4.0+, SAT/ACT Optional, essays focused on innovation. " ++
  "Stanford: Extremely selective, requires two recommendation letters, unique project portfolio. " ++
  "UC Davis: Minimum GPA 3.5, emphasis on high school science courses.".

Definition CriteriaAgent_execute (name : string) : M string :=
  let* colleges := getattr "college_results" in
  let* stream := getattr "target_stream" in
  if negb (truthy colleges) || negb (truthy stream) then
    emit ERROR (agent_logger name)
      [Lit "College results missing. Cannot find criteria."] >>
    ret "ERROR_STATE"
  else
    call_update_state [("criteria_details", PStr mock_criteria)] >>
    emit INFO (agent_logger name)
      [Lit "Admission criteria details gathered."] >>
    ret "NEXT_STATE".

Definition mock_review_notes : string :=
  "All data appears consistent. The suggested streams align with 'Biotechnology and sustainable energy'. " ++
  "College names are accurately matched to the location and target stream. " ++
  "The criteria are specific and look accurate based on general knowledge of these institutions.".

Definition ReviewerAgent_execute (name : string) : M string :=
  (* data_to_review *)
  let* interest := getattr "interest_area" in
  let* streams := getattr "suggested_streams" in
  let* location := getattr "user_location" in
  let* colleges := getattr "college_results" in
  let* criteria := getattr "criteria_details" in
  call_update_state [("reviewer_notes", PStr mock_review_notes)] >>
  emit INFO (agent_logger name) [Lit "Reviewer Agent completed analysis."] >>
  ret "NEXT_STATE".

(** The text of the summary f-string, given the values of its nine
    replacement fields in the order they are evaluated. *)
Definition summary_text
    (interest stream1 streams city state stream2 colleges criteria notes : pyval)
    : string :=
  String.concat ""
    [LF; "        --- Career Builder Helper Summary ---"; LF;
     LF; "        **User Interest:** "; py_format interest; LF;
     LF; "        **Selected Stream:** "; py_format stream1;
         " (from the initial suggestions: "; py_format streams; ")"; LF;
     LF; "        **Target Location:** "; py_format city; ", ";
         py_format state; LF;
     LF; "        **Top 3 College Options for "; py_format stream2; ":**"; LF;
     "        "; py_format colleges; LF;
     LF; "        **Admission Criteria & Process Overview:**"; LF;
     "        "; py_format criteria; LF;
     LF; "        **Reviewer Note (Validation):**"; LF;
     "        "; py_format notes; LF;
     LF; "        This detailed plan provides a robust starting point for your education journey."; LF;
     "        "].

Definition SummaryAgent_execute (name : string) : M string :=
  let* interest := getattr "interest_area" in
  let* stream1 := getattr "target_stream" in
  let* streams := getattr "suggested_streams" in
  let* location1 := getattr "user_location" in
  let* city := subscript location1 "city" in
  let* location2 := getattr "user_location" in
  let* state := subscript location2 "state" in
  let* stream2 := getattr "target_stream" in
  let* colleges := getattr "college_results" in
  let* criteria := getattr "criteria_details" in
  let* notes := getattr "reviewer_notes" in
  let final_summary :=
    summary_text interest stream1 streams city state stream2
                 colleges criteria notes in
  call_update_state [("final_summary", PStr final_summary)] >>
  emit INFO (agent_logger name) [Lit "Final summary generated."] >>
  ret "FLOW_COMPLETE".

(** The seven subclasses of [MockAgent]. *)
Inductive agent_class :=
| InterestAgent
| StreamResearchAgent
| LocationAgent
| CollegeResearchAgent
| CriteriaAgent
| ReviewerAgent
| SummaryAgent.

Definition class_execute (c : agent_class) : string -> M string :=
  match c with
  | InterestAgent => InterestAgent_execute
  | StreamResearchAgent => StreamResearchAgent_execute
  | LocationAgent => LocationAgent_execute
  | CollegeResearchAgent => CollegeResearchAgent_execute
  | CriteriaAgent => CriteriaAgent_execute
  | ReviewerAgent => ReviewerAgent_execute
  | SummaryAgent => SummaryAgent_execute
  end.

(** [cls(name, adk_state, env)] *)
Definition new (c : agent_class) (name : string) : MockAgent :=
  Agent name (class_execute c name).

(** ** The environment *)

(** [types.HttpRetryOptions], with the fields the program sets. *)
Record HttpRetryOptions := {
  attempts : nat;
  exp_base : nat;
  initial_delay : nat;
  http_status_codes : list nat
}.

(** The local [http_retry_options] of [setup_adk_environment]. *)
Definition http_retry_options : HttpRetryOptions :=
  {| attempts := 5;
     exp_base := 7;
     initial_delay := 1;
     http_status_codes := [429; 500; 503; 504] |}.

(** The mapping that [setup_adk_environment] returns; the agents
    receive it as [tools] and never read it. *)
Definition setup_adk_environment : M (list (string * string)) :=
  emit INFO logger [Lit "Initializing ADK environment and plugins..."] >>
  ret [("logger", logger);
       ("search_tool", "GoogleSearchTool_Instance");
       ("retry_config", "HttpRetryOptions_Config");
       ("adk_plugins", "LoggingPlugin_Instance")].

(** [adk_state = CareerState()] *)
Definition new_CareerState : M unit :=
  fun w => (Returned tt, World __init__ (log w)).

(** ** The flow loop *)

(** How the [while] loop was left: one of its three [break]s, or its
    condition turning false. *)
Inductive loop_exit :=
| FlowComplete
| ErrorState
| UnhandledException (e : exn)
| SequenceEnd.

Inductive control :=
| Next (cursor : nat)
| Break (how : loop_exit).

(** The record that opens an iteration. *)
Definition announce (agent : MockAgent) (w : world) : world :=
  snd (emit INFO logger
         [Lit (LF ++ "--- Executing Agent: "); Lit (name agent); Lit " ---"] w).

(** The body of the loop for [agent = agent_sequence[i]]. *)
Definition iteration (agent : MockAgent) (i : nat) : world -> control * world :=
  fun w =>
    match execute agent (announce agent w) with
    | (Returned result, w2) =>
        if String.eqb result "FLOW_COMPLETE" then
          (Break FlowComplete,
           snd (emit INFO logger [Lit "Flow successfully completed."] w2))
        else if String.eqb result "ERROR_STATE" then
          (Break ErrorState,
           snd (emit ERROR logger
                  [Lit "Flow stopped due to error in "; Lit (name agent);
                   Lit "."] w2))
        else if String.eqb result "NEXT_STATE"
                || String.eqb result "AWAIT_SELECTION" then
          (Next (i + 1), w2)
        else
          (Next i, w2)
    | (Raised e, w2) =>
        (Break (UnhandledException e),
         snd (emit CRITICAL logger
                [Lit "Unhandled exception in "; Lit (name agent); Lit ": ";
                 Exc e] w2))
    end.

Record flow_result := FlowResult {
  exit : loop_exit;
  cursor : nat;          (* current_agent_index when the loop was left *)
  executed : list nat;   (* the indices whose [execute] was called, in order *)
  final : world
}.

(** The [while] loop; [fuel] bounds the number of calls of [execute],
    which the source does not bound when a result is none of the four
    strings it compares with. *)
Fixpoint flow_loop (fuel : nat) (agent_sequence : list MockAgent)
    (i : nat) (trace : list nat) (w : world) : option flow_result :=
  match agent_sequence !! i with
  | None => Some (FlowResult SequenceEnd i trace w)
  | Some agent =>
      match fuel with
      | O => None
      | S fuel' =>
          match iteration agent i w with
          | (Next j, w') => flow_loop fuel' agent_sequence j (trace ++ [i]) w'
          | (Break how, w') => Some (FlowResult how i (trace ++ [i]) w')
          end
      end
  end.

Definition abort_notice : string :=
  LF ++ "Flow aborted. Check logs for details.".

(** [print(adk_state.final_summary or <abort notice>)]: the text
    written to stdout. *)
Definition print_summary : M string :=
  let* summary := getattr "final_summary" in
  ret (py_format (if truthy summary then summary else PStr abort_notice)).

(** The part of [run_career_builder_helper] that follows the
    construction of [agent_sequence]. *)
Definition run_flow (fuel : nat) (agent_sequence : list MockAgent) (w : world)
    : option (flow_result * outcome string) :=
  let w1 := snd (emit INFO logger
                   [Lit "Starting Career Builder Helper Agentic Flow..."] w) in
  match flow_loop fuel agent_sequence 0 [] w1 with
  | None => None
  | Some r => Some (r, fst (print_summary (final r)))
  end.

Definition agent_sequence : list MockAgent :=
  [new InterestAgent "A1_InterestCapture";
   new StreamResearchAgent "A2_StreamResearch";
   new LocationAgent "A3_LocationCapture";
   new CollegeResearchAgent "A4_CollegeSearch";
   new CriteriaAgent "A5_CriteriaSearch";
   new ReviewerAgent "A6_Reviewer";
   new SummaryAgent "A7_Summary"].

(** The entry point, started with the records [previous_log] already
    emitted by the process. *)
Definition run_career_builder_helper (fuel : nat) (previous_log : list log_record)
    : option (flow_result * outcome string) :=
  let w := snd ((setup_adk_environment >> new_CareerState) (World ∅ previous_log)) in
  run_flow fuel agent_sequence w.

(** ** The machine of the specification *)

Inductive machine :=
| RUNNING (cursor : nat)
| HALTED_SUCCESS
| HALTED_ERROR.

(** Follows the specification (4.4): [COMPLETE] and a cursor past
    the end are [HALTED_SUCCESS], [ERROR] and a fault are
    [HALTED_ERROR]. *)
Definition machine_of_exit (how : loop_exit) : machine :=
  match how with
  | FlowComplete | SequenceEnd => HALTED_SUCCESS
  | ErrorState | UnhandledException _ => HALTED_ERROR
  end.

(** The four strings that play the role of the ControlSignal. *)
Definition control_signals : list string :=
  ["NEXT_STATE"; "AWAIT_SELECTION"; "ERROR_STATE"; "FLOW_COMPLETE"].

(** ** Vocabulary of the properties *)

(** A [CareerState] object as [__init__] leaves it and the agents keep
    it: the eight fields are there and the method [update_state] is
    not shadowed by an instance attribute. *)
Definition well_formed (w : world) : Prop :=
  Forall (fun f => is_Some (attrs w !! f)) fields
  /\ attrs w !! "update_state" = None.

#[global] Instance well_formed_dec w : Decision (well_formed w).
Proof. unfold well_formed. apply _. Defined.

(** What [agent.execute()] gives when the loop reaches the agent in
    world [w]. *)
Definition result_of (agent : MockAgent) (w : world) : outcome string :=
  fst (execute agent (announce agent w)).

(** The world in which the loop, started in [w], begins its [k]-th
    iteration when none of the earlier ones left the loop. *)
Fixpoint world_at (agents : list MockAgent) (w : world) (k : nat) : world :=
  match k with
  | O => w
  | S j =>
      match agents !! j with
      | Some agent => snd (iteration agent j (world_at agents w j))
      | None => world_at agents w j
      end
  end.

(** The result of step [k] in the run started in [w]. *)
Definition result_at (agents : list MockAgent) (w : world) (k : nat)
    : option (outcome string) :=
  match agents !! k with
  | Some agent => Some (result_of agent (world_at agents w k))
  | None => None
  end.

(** CONTINUE or AWAIT_EXTERNAL_INPUT. *)
Definition proceeds (o : option (outcome string)) : Prop :=
  o = Some (Returned "NEXT_STATE") \/ o = Some (Returned "AWAIT_SELECTION").

(** The fields that the [execute] of each class reads. *)
Definition reads (c : agent_class) : list string :=
  match c with
  | InterestAgent => []
  | StreamResearchAgent => ["interest_area"]
  | LocationAgent => ["suggested_streams"]
  | CollegeResearchAgent => ["target_stream"; "user_location"]
  | CriteriaAgent => ["college_results"; "target_stream"]
  | ReviewerAgent =>
      ["interest_area"; "suggested_streams"; "user_location";
       "college_results"; "criteria_details"]
  | SummaryAgent =>
      ["interest_area"; "target_stream"; "suggested_streams"; "user_location";
       "college_results"; "criteria_details"; "reviewer_notes"]
  end.

(** The fields that the [execute] of each class tests before it works. *)
Definition validates (c : agent_class) : list string :=
  match c with
  | StreamResearchAgent => ["interest_area"]
  | CollegeResearchAgent => ["target_stream"; "user_location"]
  | CriteriaAgent => ["college_results"; "target_stream"]
  | _ => []
  end.

(** The message of the [error] record of each validating class. *)
Definition deficiency (c : agent_class) : string :=
  match c with
  | StreamResearchAgent => "Interest area missing. Cannot research streams."
  | CollegeResearchAgent => "Stream or Location missing. Cannot research colleges."
  | CriteriaAgent => "College results missing. Cannot find criteria."
  | _ => ""
  end.

End Pipeline.

(** The [initial_delay] of the options, under a name that the retry
    policy below does not reuse. *)
Definition options_initial_delay (o : HttpRetryOptions) : nat := initial_delay o.

(** ** RetryPolicy *)

Module RetryPolicy.

(** Modelled from the spec: the RetryPolicy configuration record
    (section 3); the program only builds [http_retry_options] and
    hands it to no retry loop. *)
Record configuration := Configuration {
  maximum_attempts : nat;
  exponential_base : nat;
  initial_delay : nat;
  retryable_codes : gset nat
}.

(** Modelled from the spec: the default configuration (section 6). *)
Definition default_configuration : configuration :=
  {| maximum_attempts := 5;
     exponential_base := 7;
     initial_delay := 1;
     retryable_codes := {[429; 500; 503; 504]} |}.

(** The configuration that a [types.HttpRetryOptions] value denotes. *)
Definition of_options (o : HttpRetryOptions) : configuration :=
  {| maximum_attempts := attempts o;
     exponential_base := exp_base o;
     initial_delay := options_initial_delay o;
     retryable_codes := list_to_set (http_status_codes o) |}.

(** Modelled from the spec: the [Result<T, Failure>] of an external
    operation (section 4.2), a value or a failure code. *)
Inductive result (T : Type) :=
| Ok (v : T)
| Failure (code : nat).
Arguments Ok {T} v.
Arguments Failure {T} code.

(** Modelled from the spec: what [execute_with_retry] returns, the value
    or a FatalExternalError tagged with the number of attempts made. *)
Inductive retry_result (T : Type) :=
| Success (v : T)
| FatalExternalError (code : nat) (attempts_made : nat).
Arguments Success {T} v.
Arguments FatalExternalError {T} code attempts_made.

(** What a call of [execute_with_retry] did: its result, the number of
    times it attempted the operation, the delays it waited, in order,
    and the state in which it left the external service. *)
Record retry_run (Service T : Type) := RetryRun {
  returned : retry_result T;
  calls : nat;
  waits : list nat;
  service : Service
}.
Arguments RetryRun {Service T} returned calls waits service.
Arguments returned {Service T} r.
Arguments calls {Service T} r.
Arguments waits {Service T} r.
Arguments service {Service T} r.

(** Modelled from the spec: the wait that follows the failed attempt
    with index [attempt_index] (section 4.2). *)
Definition delay (policy : configuration) (attempt_index : nat) : nat :=
  initial_delay policy * exponential_base policy ^ attempt_index.

(** Modelled from the spec: the state of the external service after
    [n] calls of the operation. *)
Fixpoint after_calls {Service T : Type}
    (operation : Service -> result T * Service) (n : nat) (s : Service)
    : Service :=
  match n with
  | O => s
  | S n' => after_calls operation n' (snd (operation s))
  end.

(** Modelled from the spec: the algorithm of [execute_with_retry]
    (sections 4.2, 5 and 8), which the repository does not contain.
    The attempt with index [attempt_index] is made. A failure whose
    code is not retryable is returned at once. A failure with a
    retryable code while attempts remain is followed by the wait
    [delay attempt_index] and the attempt counter is incremented; the
    operation is then attempted again, unless the budget of
    [maximum_attempts] is used up: the last attempt, too, has its wait
    before the failure is returned as exhausted, tagged with the number
    of attempts made. *)
Equations? run_attempts {Service T : Type} (policy : configuration)
    (operation : Service -> result T * Service)
    (attempt_index : nat) (s : Service) (waited : list nat)
    : retry_run Service T
    by wf (maximum_attempts policy - attempt_index) lt :=
  run_attempts policy operation attempt_index s waited with operation s := {
    | (Ok v, s') := RetryRun (Success v) (attempt_index + 1) waited s';
    | (Failure code, s') with
        decide (code ∈ retryable_codes policy
                ∧ attempt_index < maximum_attempts policy) := {
        | right Hstop :=
            RetryRun (FatalExternalError code (attempt_index + 1))
                     (attempt_index + 1) waited s';
        | left Hretry with
            decide (attempt_index + 1 < maximum_attempts policy) := {
            | left Hagain :=
                run_attempts policy operation (attempt_index + 1) s'
                        (waited ++ [delay policy attempt_index]);
            | right Hexhausted :=
                RetryRun (FatalExternalError code (attempt_index + 1))
                         (attempt_index + 1)
                         (waited ++ [delay policy attempt_index]) s' } } }.
Proof. lia. Qed.

(** Modelled from the spec: [execute_with_retry]; each call starts its
    attempt counter at zero. *)
Definition execute_with_retry {Service T : Type} (policy : configuration)
    (operation : Service -> result T * Service) (s : Service)
    : retry_run Service T :=
  run_attempts policy operation 0 s [].

Definition total_wait {Service T : Type} (r : retry_run Service T) : nat :=
  list_sum (waits r).

End RetryPolicy.

(** ** Expected results of the canonical run *)

(** The text that the seven agents of [agent_sequence] compose from the
    mock constants, line by line. *)
Definition expected_summary : string :=
  String.concat LF
    ["";
     "        --- Career Builder Helper Summary ---";
     "";
     "        **User Interest:** Biotechnology and sustainable energy";
     "";
     "        **Selected Stream:** Applied Biological Sciences (Focus on Bio-engineering) (from the initial suggestions: 1. Applied Biological Sciences (Focus on Bio-engineering), 2. Environmental Science and Policy, 3. Chemical Engineering with a focus on Renewable Fuels.)";
     "";
     "        **Target Location:** Berkeley, California";
     "";
     "        **Top 3 College Options for Applied Biological Sciences (Focus on Bio-engineering):**";
     "        1. University of California, Berkeley (Bioengineering), 2. Stanford University (Sustainable Science and Tech), 3. UC Davis (Applied Biology).";
     "";
     "        **Admission Criteria & Process Overview:**";
     "        UC Berkeley: GPA 4.0+, SAT/ACT Optional, essays focused on innovation. Stanford: Extremely selective, requires two recommendation letters, unique project portfolio. UC Davis: Minimum GPA 3.5, emphasis on high school science courses.";
     "";
     "        **Reviewer Note (Validation):**";
     "        All data appears consistent. The suggested streams align with 'Biotechnology and sustainable energy'. College names are accurately matched to the location and target stream. The criteria are specific and look accurate based on general knowledge of these institutions.";
     "";
     "        This detailed plan provides a robust starting point for your education journey.";
     "        "].

Definition expected_state : gmap string pyval :=
  <["final_summary" := PStr expected_summary]>
  (<["reviewer_notes" := PStr mock_review_notes]>
  (<["criteria_details" := PStr mock_criteria]>
  (<["college_results" := PStr mock_colleges]>
  (<["target_stream" := PStr mock_selection]>
  (<["user_location" := mock_location]>
  (<["suggested_streams" := PStr mock_streams]>
  (<["interest_area" := PStr mock_interest]> ∅))))))).

(** A rendering of [repr] for the examples below: it agrees with the
    interpreter on [None] and on dicts whose strings hold no quote,
    backslash or control character. *)
Fixpoint plain_repr (v : pyval) : string :=
  match v with
  | PNone => "None"
  | PStr s => "'" ++ s ++ "'"
  | PDict items =>
      "{" ++ String.concat ", "
               ((fix entries (l : list (string * pyval)) : list string :=
                   match l with
                   | [] => []
                   | (k, x) :: rest =>
                       ("'" ++ k ++ "': " ++ plain_repr x) :: entries rest
                   end) items)
          ++ "}"
  end.

(** An external operation that always answers 503 and counts its calls. *)
Definition always_503 (served : nat) : RetryPolicy.result unit * nat :=
  (RetryPolicy.Failure 503, S served).

(** A computation whose result, when it returns, is one of [signals]. *)
Definition returns_in (signals : list string) (c : M string) : Prop :=
  forall w, match fst (c w) with
            | Returned s => s ∈ signals
            | Raised _ => True
            end.

(** What holds when the loop over [agents] is left, if it was entered
    with no summary written yet. *)
Definition flow_post (agents : list MockAgent) (r : flow_result) : Prop :=
  match exit r with
  | FlowComplete =>
      exists txt, attrs (final r) !! "final_summary" = Some (PStr txt)
                  /\ txt <> ""
  | ErrorState | SequenceEnd =>
      attrs (final r) !! "final_summary" = Some PNone
  | UnhandledException e =>
      attrs (final r) !! "final_summary" = Some PNone
      /\ exists a, agents !! cursor r = Some a
           /\ last (log (final r)) =
              Some (LogRecord CRITICAL logger
                      [Lit "Unhandled exception in "; Lit (name a); Lit ": ";
                       Exc e])
  end.

(** The agents built from a list of classes and names. *)
Definition instantiate (py_repr : pyval -> string)
    (specs : list (agent_class * string)) : list MockAgent :=
  map (fun '(c, nm) => new py_repr c nm) specs.

(** ** Vocabulary of the further properties *)

(** The test of [hasattr(self, key)] on the attributes [m]. *)
Definition accepted (m : gmap string pyval) (key : string) : bool :=
  bool_decide (is_Some (m !! key))
  || bool_decide (key ∈ CareerState.class_namespace)
  || bool_decide (key ∈ CareerState.object_namespace).

(** The two kinds of record that [update_state] emits. *)
Definition unknown_key_warning (key : string) : log_record :=
  LogRecord WARNING logger [Lit "Attempted to set unknown state key: "; Lit key].

Definition state_updated (kwargs : list (string * pyval)) : log_record :=
  LogRecord INFO logger [Lit "State updated: "; Fmt (PDict kwargs)].

(** The assignments [setattr(self, key, value)] of a list of entries,
    in order. *)
Definition assign_all (m : gmap string pyval) (entries : list (string * pyval))
    : gmap string pyval :=
  foldl (fun m0 e => <[fst e := snd e]> m0) m entries.

(** A list of cursor values that starts at [start] and then, from one
    element to the next, stays or moves forward by one. *)
Fixpoint walks (start : nat) (l : list nat) : Prop :=
  match l with
  | [] => True
  | x :: rest => x = start /\ (walks start rest \/ walks (start + 1) rest)
  end.

(** The fields that the [execute] of each class passes to
    [update_state]. *)
Definition writes (c : agent_class) : list string :=
  match c with
  | InterestAgent => ["interest_area"]
  | StreamResearchAgent => ["suggested_streams"]
  | LocationAgent => ["user_location"; "target_stream"]
  | CollegeResearchAgent => ["college_results"]
  | CriteriaAgent => ["criteria_details"]
  | ReviewerAgent => ["reviewer_notes"]
  | SummaryAgent => ["final_summary"]
  end.

(** Nothing is taken away: every attribute is still there and the
    earlier records open the log. *)
Definition grows (w w' : world) : Prop :=
  (forall k, is_Some (attrs w !! k) -> is_Some (attrs w' !! k))
  /\ exists l, log w' = (log w ++ l)%list.

(** A computation that takes nothing away, in whatever world it runs. *)
Definition keeps {A} (c : M A) : Prop := forall w, grows w (snd (c w)).

#[global] Instance agent_class_eq_dec : EqDecision agent_class.
Proof. solve_decision. Defined.

(** What every run over [specs] from a fresh state keeps before each
    iteration: the object is well formed, no summary is written, and
    [user_location] is [None] until a LocationAgent has run and the
    mock location from then on. *)
Definition fresh_invariant (specs : list (agent_class * string))
    (i : nat) (w : world) : Prop :=
  well_formed w
  /\ attrs w !! "final_summary" = Some PNone
  /\ ((attrs w !! "user_location" = Some PNone
       /\ forall j nm, j < i -> specs !! j <> Some (LocationAgent, nm))
      \/ (attrs w !! "user_location" = Some mock_location
          /\ exists j nm, j < i /\ specs !! j = Some (LocationAgent, nm))).

(** * Properties *)

Local Open Scope list_scope.

(** ** One iteration of the loop *)

Section Iteration.

Variables (agent : MockAgent) (i : nat) (w : world).

Lemma iteration_next :
  result_of agent w = Returned "NEXT_STATE"
  \/ result_of agent w = Returned "AWAIT_SELECTION" ->
  iteration agent i w = (Next (i + 1), snd (execute agent (announce agent w))).
Proof.
  unfold result_of, iteration.
  destruct (execute agent (announce agent w)) as [[s|e] w2]; simpl;
    intros [H|H]; inversion H; subst; reflexivity.
Qed.

Lemma iteration_error :
  result_of agent w = Returned "ERROR_STATE" ->
  exists w', iteration agent i w = (Break ErrorState, w').
Proof.
  unfold result_of, iteration.
  destruct (execute agent (announce agent w)) as [[s|e] w2]; simpl;
    intros H; inversion H; subst; eexists; reflexivity.
Qed.

Lemma iteration_complete :
  result_of agent w = Returned "FLOW_COMPLETE" ->
  exists w', iteration agent i w = (Break FlowComplete, w').
Proof.
  unfold result_of, iteration.
  destruct (execute agent (announce agent w)) as [[s|e] w2]; simpl;
    intros H; inversion H; subst; eexists; reflexivity.
Qed.

(** The [except Exception] clause: the exception is recorded at level
    CRITICAL and the loop is left; the attributes are those the agent
    left behind. *)
Lemma iteration_raised e :
  result_of agent w = Raised e ->
  iteration agent i w =
    (Break (UnhandledException e),
     World (attrs (snd (execute agent (announce agent w))))
           (log (snd (execute agent (announce agent w))) ++
            [LogRecord CRITICAL logger
               [Lit "Unhandled exception in "; Lit (name agent); Lit ": ";
                Exc e]])).
Proof.
  unfold result_of, iteration.
  destruct (execute agent (announce agent w)) as [[s|e'] w2]; simpl;
    intros H; inversion H; subst; reflexivity.
Qed.

(** Whatever the agent does, a signal among the four moves the cursor
    forward by one or leaves the loop. *)
Lemma iteration_progress :
  match result_of agent w with
  | Returned s => s ∈ control_signals
  | Raised _ => True
  end ->
  fst (iteration agent i w) = Next (i + 1)
  \/ exists how, fst (iteration agent i w) = Break how.
Proof.
  unfold result_of, iteration, control_signals.
  destruct (execute agent (announce agent w)) as [[s|e] w2]; simpl.
  - intros H. repeat (apply elem_of_cons in H as [->|H]); simpl; eauto.
    apply elem_of_nil in H. contradiction.
  - eauto.
Qed.

End Iteration.

(** ** The loop *)

Lemma flow_loop_end fuel (agents : list MockAgent) i trace w :
  length agents <= i ->
  flow_loop fuel agents i trace w = Some (FlowResult SequenceEnd i trace w).
Proof.
  intros H. apply lookup_ge_None_2 in H.
  destruct fuel; simpl; rewrite H; reflexivity.
Qed.

(** More fuel does not change a finished run. *)
Lemma flow_loop_more_fuel fuel (agents : list MockAgent) :
  forall i trace w r fuel',
    flow_loop fuel agents i trace w = Some r -> fuel <= fuel' ->
    flow_loop fuel' agents i trace w = Some r.
Proof.
  induction fuel as [|fuel IH]; intros i trace w r fuel' Hrun Hle.
  - simpl in Hrun. destruct (agents !! i) eqn:Hi; [discriminate|].
    destruct fuel'; simpl; rewrite Hi; assumption.
  - destruct fuel' as [|fuel']; [lia|].
    simpl in *. destruct (agents !! i) eqn:Hi; [|assumption].
    destruct (iteration m i w) as [[j|how] w']; [|assumption].
    apply IH; [assumption|lia].
Qed.

(** While the steps proceed, the loop walks through them in order. *)
Lemma flow_loop_prefix (agents : list MockAgent) w k :
  (forall j, j < k -> proceeds (result_at agents w j)) ->
  forall fuel trace,
    flow_loop (k + fuel) agents 0 trace w =
    flow_loop fuel agents k (trace ++ seq 0 k) (world_at agents w k).
Proof.
  induction k as [|k IH]; intros Hk fuel trace.
  - simpl. rewrite app_nil_r. reflexivity.
  - replace (S k + fuel) with (k + S fuel) by lia.
    rewrite IH by (intros j Hj; apply Hk; lia).
    specialize (Hk k (Nat.lt_succ_diag_r k)).
    unfold proceeds, result_at in Hk.
    simpl flow_loop. simpl world_at.
    destruct (agents !! k) as [agent|] eqn:Ha.
    + assert (Hres : result_of agent (world_at agents w k) = Returned "NEXT_STATE"
                     \/ result_of agent (world_at agents w k) = Returned "AWAIT_SELECTION")
        by (destruct Hk as [Hk|Hk]; inversion Hk; auto).
      rewrite (iteration_next agent k _ Hres). cbn [snd].
      change (0 :: seq 1 k) with (seq 0 (S k)).
      rewrite seq_S, app_assoc, Nat.add_1_r. reflexivity.
    + destruct Hk as [Hk|Hk]; discriminate.
Qed.

(** When every result is a signal, [length agents - i] calls of
    [execute] are enough from cursor [i], and the cursor values visited
    are consecutive. *)
Lemma flow_loop_terminates (agents : list MockAgent) :
  (forall a w, a ∈ agents ->
     match fst (execute a w) with
     | Returned s => s ∈ control_signals
     | Raised _ => True
     end) ->
  forall n i trace w,
    length agents <= i + n ->
    exists r, flow_loop n agents i trace w = Some r
              /\ exists m, m <= n /\ executed r = trace ++ seq i m.
Proof.
  intros Hsig. induction n as [|n IH]; intros i trace w Hlen.
  - rewrite flow_loop_end by lia. eexists. split; [reflexivity|].
    exists 0. simpl. rewrite app_nil_r. auto.
  - simpl. destruct (agents !! i) as [agent|] eqn:Ha.
    + assert (Hin : agent ∈ agents) by (eapply list_elem_of_lookup_2; eauto).
      pose proof (iteration_progress agent i w (Hsig _ _ Hin)) as Hp.
      destruct (iteration agent i w) as [[j|how] w'] eqn:Hit; simpl in Hp.
      * destruct Hp as [Hp|[how Hp]]; [|discriminate].
        inversion Hp; subst j.
        destruct (IH (i + 1) (trace ++ [i]) w') as (r & Hr & m & Hm & Hex); [lia|].
        exists r. split; [assumption|].
        exists (S m). split; [lia|].
        rewrite Hex, <- app_assoc. simpl.
        replace (i + 1) with (S i) by lia. reflexivity.
      * eexists. split; [reflexivity|].
        exists 1. split; [lia|]. reflexivity.
    + eexists. split; [reflexivity|].
      exists 0. split; [lia|]. simpl. rewrite app_nil_r. reflexivity.
Qed.

(** C4. When every step answers with one of the four control signals
    (or raises), the loop started at cursor 0 finishes within
    [length agents] calls of [execute]: it returns a result for every
    fuel of at least that size, the cursor values it visited are
    0, 1, 2, ... without repetition, at most [length agents] of them,
    and each iteration either moves the cursor forward by one or leaves
    the loop. *)
Theorem loop_terminates_within_length (agents : list MockAgent) (w : world) :
  (forall a w', a ∈ agents ->
     match fst (execute a w') with
     | Returned s => s ∈ control_signals
     | Raised _ => True
     end) ->
  (forall fuel, length agents <= fuel ->
     exists r, flow_loop fuel agents 0 [] w = Some r
               /\ length (executed r) <= length agents
               /\ executed r = seq 0 (length (executed r)))
  /\ (forall i agent w', agents !! i = Some agent ->
        fst (iteration agent i w') = Next (i + 1)
        \/ exists how, fst (iteration agent i w') = Break how).
Proof.
  intros Hsig. split.
  - intros fuel Hfuel.
    destruct (flow_loop_terminates agents Hsig (length agents) 0 [] w)
      as (r & Hr & m & Hm & Hex); [lia|].
    exists r. split; [eapply flow_loop_more_fuel; eauto|].
    simpl in Hex. rewrite Hex, length_seq. auto.
  - intros i agent w' Ha. apply iteration_progress. apply Hsig.
    eapply list_elem_of_lookup_2; eauto.
Qed.

(** C5. When the steps before [k] answer NEXT_STATE or AWAIT_SELECTION
    and step [k] answers ERROR_STATE, the loop calls [execute] on the
    steps 0, ..., k in this order and on no other, leaves through the
    error [break] with the cursor on [k], and the machine of the
    specification is in HALTED_ERROR. *)
Theorem halt_on_error (agents : list MockAgent) (w : world) (k : nat) :
  (forall j, j < k -> proceeds (result_at agents w j)) ->
  result_at agents w k = Some (Returned "ERROR_STATE") ->
  forall fuel, k < fuel ->
    exists r, flow_loop fuel agents 0 [] w = Some r
              /\ exit r = ErrorState
              /\ cursor r = k
              /\ executed r = seq 0 (S k)
              /\ machine_of_exit (exit r) = HALTED_ERROR.
Proof.
  intros Hpre Hk fuel Hfuel.
  replace fuel with (k + S (fuel - S k)) by lia.
  rewrite (flow_loop_prefix agents w k Hpre). simpl flow_loop.
  unfold result_at in Hk.
  destruct (agents !! k) as [agent|]; [|discriminate].
  inversion Hk as [Hres].
  destruct (iteration_error agent k _ Hres) as [w' ->].
  eexists. split; [reflexivity|].
  cbn [exit cursor executed machine_of_exit app].
  rewrite seq_S. auto.
Qed.

(** C6. When the steps before [k] answer NEXT_STATE or AWAIT_SELECTION
    and step [k] answers FLOW_COMPLETE, the loop stops at [k] through
    the completion [break], having called [execute] on the steps
    0, ..., k only, however many steps follow, and the machine of the
    specification is in HALTED_SUCCESS. *)
Theorem stop_on_complete (agents : list MockAgent) (w : world) (k : nat) :
  (forall j, j < k -> proceeds (result_at agents w j)) ->
  result_at agents w k = Some (Returned "FLOW_COMPLETE") ->
  forall fuel, k < fuel ->
    exists r, flow_loop fuel agents 0 [] w = Some r
              /\ exit r = FlowComplete
              /\ cursor r = k
              /\ executed r = seq 0 (S k)
              /\ machine_of_exit (exit r) = HALTED_SUCCESS.
Proof.
  intros Hpre Hk fuel Hfuel.
  replace fuel with (k + S (fuel - S k)) by lia.
  rewrite (flow_loop_prefix agents w k Hpre). simpl flow_loop.
  unfold result_at in Hk.
  destruct (agents !! k) as [agent|]; [|discriminate].
  inversion Hk as [Hres].
  destruct (iteration_complete agent k _ Hres) as [w' ->].
  eexists. split; [reflexivity|].
  cbn [exit cursor executed machine_of_exit app].
  rewrite seq_S. auto.
Qed.

(** ** The state object *)

Lemma well_formed_field w f :
  well_formed w -> f ∈ CareerState.fields -> is_Some (attrs w !! f).
Proof.
  intros [Hf _] Hin. rewrite Forall_forall in Hf. apply Hf. assumption.
Qed.

Lemma well_formed_log w l : well_formed w -> well_formed (World (attrs w) l).
Proof. intros H. exact H. Qed.

(** Writing an attribute other than [update_state] keeps the object
    well formed. *)
Lemma well_formed_insert w k v l :
  well_formed w -> k <> "update_state" ->
  well_formed (World (<[k := v]> (attrs w)) l).
Proof.
  intros [Hf Hm] Hk. split; simpl.
  - eapply Forall_impl; [exact Hf|]. intros f Hsome. simpl in Hsome.
    rewrite lookup_insert_is_Some. destruct (decide (k = f)); auto.
  - rewrite lookup_insert_ne by assumption. assumption.
Qed.

Lemma well_formed_init l : well_formed (World CareerState.__init__ l).
Proof. vm_compute. split; [|reflexivity]. repeat constructor; eexists; reflexivity. Qed.

(** Under a name that does not begin with two underscores [setattr]
    is a plain write into the instance dictionary. *)
Lemma setattr_ordinary key value w :
  ordinary key = true ->
  CareerState.setattr key value w =
    (Returned tt, World (<[key := value]> (attrs w)) (log w)).
Proof.
  intros Hk. unfold CareerState.setattr.
  destruct (String.eqb key "__class__") eqn:E1;
    [apply String.eqb_eq in E1; subst; discriminate Hk|].
  destruct (String.eqb key "__weakref__") eqn:E2;
    [apply String.eqb_eq in E2; subst; discriminate Hk|].
  destruct (String.eqb key "__dict__") eqn:E3;
    [apply String.eqb_eq in E3; subst; discriminate Hk|].
  reflexivity.
Qed.

(** With no such name among its keys, [kwargs] reads after the loop as
    it was passed. *)
Lemma shown_ordinary kwargs :
  Forall (fun e => ordinary (fst e) = true) kwargs ->
  CareerState.shown kwargs = kwargs.
Proof.
  induction 1 as [|[k v] kwargs Hk _ IH]; [reflexivity|].
  cbn [CareerState.shown]. rewrite IH. destruct v as [| |items]; try reflexivity.
  destruct (String.eqb k "__dict__") eqn:E; [|reflexivity].
  apply String.eqb_eq in E. subst. discriminate Hk.
Qed.

Lemma fields_ordinary key : key ∈ CareerState.fields -> ordinary key = true.
Proof.
  unfold CareerState.fields. intros H.
  repeat (apply elem_of_cons in H as [->|H]; [reflexivity|]).
  apply elem_of_nil in H. contradiction.
Qed.

(** [update_state] does not raise when no key begins with two
    underscores. *)
Lemma update_state_returns kwargs w :
  Forall (fun e => ordinary (fst e) = true) kwargs ->
  fst (CareerState.update_state kwargs w) = Returned tt.
Proof.
  intros Hord. unfold CareerState.update_state, bind.
  assert (H : forall w0, fst (for_each kwargs (fun '(key, value) =>
              bind (CareerState.hasattr key) (fun known =>
                if known then CareerState.setattr key value
                else emit WARNING logger
                       [Lit "Attempted to set unknown state key: "; Lit key])) w0)
            = Returned tt).
  { induction Hord as [|[k v] kwargs Hk Hord IH]; intros w0; [reflexivity|].
    cbn [for_each]. unfold bind at 1. unfold bind at 1.
    unfold CareerState.hasattr at 1.
    destruct (_ || _ || _); [rewrite setattr_ordinary by exact Hk|unfold emit at 1];
      apply IH. }
  specialize (H w).
  destruct (for_each _ _ w) as [[[]|e] w']; simpl in *; [reflexivity|discriminate].
Qed.

(** One entry whose name [hasattr] accepts is written and reported. *)
Lemma update_state_accepted key value w :
  ordinary key = true ->
  is_Some (attrs w !! key) \/ key ∈ CareerState.class_namespace ->
  CareerState.update_state [(key, value)] w =
    (Returned tt,
     World (<[key := value]> (attrs w))
           (log w ++ [LogRecord INFO logger
                        [Lit "State updated: "; Fmt (PDict [(key, value)])]])).
Proof.
  intros Hord H.
  unfold CareerState.update_state.
  rewrite (shown_ordinary [(key, value)]) by (repeat constructor; exact Hord).
  unfold for_each, bind, CareerState.hasattr.
  assert (Hb : bool_decide (is_Some (attrs w !! key))
               || bool_decide (key ∈ CareerState.class_namespace)
               || bool_decide (key ∈ CareerState.object_namespace) = true).
  { destruct H as [H|H]; rewrite (bool_decide_eq_true_2 _ H);
      [reflexivity|rewrite orb_true_r; reflexivity]. }
  rewrite Hb. rewrite setattr_ordinary by exact Hord. reflexivity.
Qed.

(** One entry whose name [hasattr] refuses is dropped with a warning;
    the attributes do not change. *)
Lemma update_state_refused key value w :
  attrs w !! key = None -> key ∉ CareerState.class_namespace ->
  key ∉ CareerState.object_namespace ->
  CareerState.update_state [(key, value)] w =
    (Returned tt,
     World (attrs w)
           (log w ++ [LogRecord WARNING logger
                        [Lit "Attempted to set unknown state key: "; Lit key]]
                  ++ [LogRecord INFO logger
                        [Lit "State updated: "; Fmt (PDict [(key, value)])]])).
Proof.
  intros Hnone Hcls Hobj.
  assert (Hshown : CareerState.shown [(key, value)] = [(key, value)]).
  { cbn [CareerState.shown]. destruct value as [| |items]; try reflexivity.
    destruct (String.eqb key "__dict__") eqn:E; [|reflexivity].
    apply String.eqb_eq in E. subst. exfalso. apply Hcls.
    unfold CareerState.class_namespace. rewrite !elem_of_cons. tauto. }
  unfold CareerState.update_state. rewrite Hshown.
  unfold for_each, bind, CareerState.hasattr, emit, ret.
  rewrite Hnone.
  rewrite (bool_decide_eq_false_2 _ Hcls), (bool_decide_eq_false_2 _ Hobj).
  rewrite bool_decide_eq_false_2 by (intros [x Hx]; discriminate).
  simpl. rewrite <- app_assoc. reflexivity.
Qed.

(** The call of [update_state] that the agents make, for one field. *)
Lemma call_update_state_field key value w :
  well_formed w -> key ∈ CareerState.fields ->
  CareerState.call_update_state [(key, value)] w =
    (Returned tt,
     World (<[key := value]> (attrs w))
           (log w ++ [LogRecord INFO logger
                        [Lit "State updated: "; Fmt (PDict [(key, value)])]])).
Proof.
  intros Hwf Hin. unfold CareerState.call_update_state.
  destruct Hwf as [Hf Hm]. rewrite Hm.
  apply update_state_accepted; [apply fields_ordinary; exact Hin|]. left.
  rewrite Forall_forall in Hf. auto.
Qed.

Lemma getattr_field f w :
  well_formed w -> f ∈ CareerState.fields ->
  exists v, attrs w !! f = Some v /\ CareerState.getattr f w = (Returned v, w).
Proof.
  intros Hwf Hin. destruct (well_formed_field w f Hwf Hin) as [v Hv].
  exists v. split; [assumption|]. unfold CareerState.getattr. rewrite Hv. reflexivity.
Qed.

(** ** The agents on a well-formed state *)

Ltac in_fields := unfold CareerState.fields; set_solver.

(** Reads the field [f] of a well-formed world, naming its value. *)
Ltac read_field Hwf f v Hv :=
  let H := fresh in
  destruct (well_formed_field _ f Hwf ltac:(in_fields)) as [v Hv].

Ltac run_agent :=
  unfold bind, CareerState.getattr, emit, ret, raise; cbn [attrs log fst snd].

Section Agents.

Variable nm : string.
Variable w : world.
Hypothesis Hwf : well_formed w.

Lemma InterestAgent_runs :
  exists l, InterestAgent_execute nm w =
    (Returned "NEXT_STATE",
     World (<["interest_area" := PStr mock_interest]> (attrs w)) l).
Proof.
  unfold InterestAgent_execute. run_agent.
  rewrite (call_update_state_field _ _ _ Hwf) by in_fields.
  eexists. reflexivity.
Qed.

Lemma StreamResearchAgent_runs v :
  attrs w !! "interest_area" = Some v ->
  if truthy v then
    exists l, StreamResearchAgent_execute nm w =
      (Returned "AWAIT_SELECTION",
       World (<["suggested_streams" := PStr mock_streams]> (attrs w)) l)
  else
    StreamResearchAgent_execute nm w =
      (Returned "ERROR_STATE",
       World (attrs w)
             (log w ++ [LogRecord ERROR (agent_logger nm)
                          [Lit (deficiency StreamResearchAgent)]])).
Proof.
  intros Hv. unfold StreamResearchAgent_execute. run_agent. rewrite Hv.
  destruct (truthy v); cbn [negb]; run_agent; [|reflexivity].
  rewrite (call_update_state_field _ _ _ Hwf) by in_fields.
  eexists. reflexivity.
Qed.

Lemma LocationAgent_runs :
  exists l, LocationAgent_execute nm w =
    (Returned "NEXT_STATE",
     World (<["target_stream" := PStr mock_selection]>
              (<["user_location" := mock_location]> (attrs w))) l).
Proof.
  read_field Hwf "suggested_streams" v Hv.
  read_field Hwf "target_stream" t Ht.
  read_field Hwf "user_location" u Hu.
  destruct Hwf as [_ Hm].
  unfold LocationAgent_execute. run_agent. rewrite Hv. cbn [attrs log].
  unfold CareerState.call_update_state. cbn [attrs]. rewrite Hm.
  unfold CareerState.update_state, for_each, CareerState.hasattr. run_agent.
  rewrite Hu, bool_decide_eq_true_2 by eauto. cbn [orb].
  rewrite setattr_ordinary by reflexivity. cbn [attrs log].
  rewrite lookup_insert_ne by discriminate.
  rewrite Ht, bool_decide_eq_true_2 by eauto. cbn [orb].
  rewrite setattr_ordinary by reflexivity. cbn [attrs log].
  eexists. reflexivity.
Qed.

Lemma CollegeResearchAgent_runs t u :
  attrs w !! "target_stream" = Some t ->
  attrs w !! "user_location" = Some u ->
  if truthy t && truthy u then
    match getitem u "city", getitem u "state" with
    | Returned _, Returned _ =>
        exists l, CollegeResearchAgent_execute nm w =
          (Returned "NEXT_STATE",
           World (<["college_results" := PStr mock_colleges]> (attrs w)) l)
    | Raised e, _ | Returned _, Raised e =>
        CollegeResearchAgent_execute nm w = (Raised e, w)
    end
  else
    CollegeResearchAgent_execute nm w =
      (Returned "ERROR_STATE",
       World (attrs w)
             (log w ++ [LogRecord ERROR (agent_logger nm)
                          [Lit (deficiency CollegeResearchAgent)]])).
Proof.
  intros Ht Hu. unfold CollegeResearchAgent_execute. run_agent.
  rewrite Ht, Hu.
  destruct (truthy t); cbn [negb orb andb]; [|reflexivity].
  destruct (truthy u); cbn [negb orb andb]; [|reflexivity].
  unfold subscript.
  destruct (getitem u "city"); [|reflexivity].
  destruct (getitem u "state"); [|reflexivity].
  rewrite (call_update_state_field _ _ _ Hwf) by in_fields.
  eexists. reflexivity.
Qed.

Lemma CriteriaAgent_runs c t :
  attrs w !! "college_results" = Some c ->
  attrs w !! "target_stream" = Some t ->
  if truthy c && truthy t then
    exists l, CriteriaAgent_execute nm w =
      (Returned "NEXT_STATE",
       World (<["criteria_details" := PStr mock_criteria]> (attrs w)) l)
  else
    CriteriaAgent_execute nm w =
      (Returned "ERROR_STATE",
       World (attrs w)
             (log w ++ [LogRecord ERROR (agent_logger nm)
                          [Lit (deficiency CriteriaAgent)]])).
Proof.
  intros Hc Ht. unfold CriteriaAgent_execute. run_agent.
  rewrite Hc, Ht.
  destruct (truthy c); cbn [negb orb andb]; [|reflexivity].
  destruct (truthy t); cbn [negb orb andb]; [|reflexivity].
  rewrite (call_update_state_field _ _ _ Hwf) by in_fields.
  eexists. reflexivity.
Qed.

Lemma ReviewerAgent_runs :
  exists l, ReviewerAgent_execute nm w =
    (Returned "NEXT_STATE",
     World (<["reviewer_notes" := PStr mock_review_notes]> (attrs w)) l).
Proof.
  read_field Hwf "interest_area" v1 H1.
  read_field Hwf "suggested_streams" v2 H2.
  read_field Hwf "user_location" v3 H3.
  read_field Hwf "college_results" v4 H4.
  read_field Hwf "criteria_details" v5 H5.
  unfold ReviewerAgent_execute. run_agent.
  rewrite H1, H2, H3, H4, H5.
  rewrite (call_update_state_field _ _ _ Hwf) by in_fields.
  eexists. reflexivity.
Qed.

Variable py_repr : pyval -> string.

Lemma SummaryAgent_runs interest stream streams u colleges criteria notes :
  attrs w !! "interest_area" = Some interest ->
  attrs w !! "target_stream" = Some stream ->
  attrs w !! "suggested_streams" = Some streams ->
  attrs w !! "user_location" = Some u ->
  attrs w !! "college_results" = Some colleges ->
  attrs w !! "criteria_details" = Some criteria ->
  attrs w !! "reviewer_notes" = Some notes ->
  match getitem u "city", getitem u "state" with
  | Returned city, Returned state =>
      exists l, SummaryAgent_execute py_repr nm w =
        (Returned "FLOW_COMPLETE",
         World (<["final_summary" :=
                    PStr (summary_text py_repr interest stream streams city
                            state stream colleges criteria notes)]>
                  (attrs w)) l)
  | Raised e, _ | Returned _, Raised e =>
      SummaryAgent_execute py_repr nm w = (Raised e, w)
  end.
Proof.
  intros H1 H2 H3 H4 H5 H6 H7. unfold SummaryAgent_execute. run_agent.
  rewrite H1, H2, H3, H4. unfold subscript.
  destruct (getitem u "city"); [|reflexivity].
  rewrite H4.
  destruct (getitem u "state"); [|reflexivity].
  rewrite H2, H5, H6, H7.
  rewrite (call_update_state_field _ _ _ Hwf) by in_fields.
  eexists. reflexivity.
Qed.

Lemma summary_text_not_empty a b c d e f g h k :
  summary_text py_repr a b c d e f g h k <> "".
Proof. unfold summary_text. cbn [String.concat LF append]. discriminate. Qed.

(** What the [execute] of each class can do to a well-formed state. *)
Lemma execute_classified c :
  match execute (new py_repr c nm) w with
  | (Returned s, w') =>
      ((s = "NEXT_STATE" \/ s = "AWAIT_SELECTION") /\ c <> SummaryAgent
       /\ well_formed w'
       /\ attrs w' !! "final_summary" = attrs w !! "final_summary")
      \/ (s = "ERROR_STATE" /\ attrs w' = attrs w)
      \/ (s = "FLOW_COMPLETE" /\ c = SummaryAgent /\ well_formed w'
          /\ exists txt, attrs w' !! "final_summary" = Some (PStr txt)
                         /\ txt <> "")
  | (Raised e, w') =>
      w' = w /\ (c = CollegeResearchAgent \/ c = SummaryAgent)
      /\ exists u, attrs w !! "user_location" = Some u
                   /\ (getitem u "city" = Raised e
                       \/ getitem u "state" = Raised e)
  end.
Proof.
  read_field Hwf "interest_area" v1 H1.
  read_field Hwf "suggested_streams" v2 H2.
  read_field Hwf "user_location" v3 H3.
  read_field Hwf "target_stream" v4 H4.
  read_field Hwf "college_results" v5 H5.
  read_field Hwf "criteria_details" v6 H6.
  read_field Hwf "reviewer_notes" v7 H7.
  assert (Hkeep : forall k v l, k <> "final_summary" -> k <> "update_state" ->
            well_formed (World (<[k := v]> (attrs w)) l)
            /\ attrs (World (<[k := v]> (attrs w)) l) !! "final_summary"
               = attrs w !! "final_summary").
  { intros k v l Hk1 Hk2. split; [apply well_formed_insert; assumption|].
    simpl. apply lookup_insert_ne. assumption. }
  destruct c; cbn [new execute class_execute].
  - destruct InterestAgent_runs as [l ->].
    left. repeat split; auto; try discriminate; apply Hkeep; discriminate.
  - pose proof (StreamResearchAgent_runs v1 H1) as Hr.
    destruct (truthy v1).
    + destruct Hr as [l ->].
      left. repeat split; auto; try discriminate; apply Hkeep; discriminate.
    + rewrite Hr. right. left. auto.
  - destruct LocationAgent_runs as [l ->].
    left. split; [auto|]. split; [discriminate|]. split.
    + apply (well_formed_insert (World _ l)); [|discriminate].
      apply well_formed_insert; [assumption|discriminate].
    + simpl. rewrite !lookup_insert_ne by discriminate. reflexivity.
  - pose proof (CollegeResearchAgent_runs v4 v3 H4 H3) as Hr.
    destruct (truthy v4 && truthy v3); [|rewrite Hr; right; left; auto].
    destruct (getitem v3 "city") as [x|e] eqn:Ec;
      [destruct (getitem v3 "state") as [y|e] eqn:Es|].
    + destruct Hr as [l ->].
      left. repeat split; auto; try discriminate; apply Hkeep; discriminate.
    + rewrite Hr. eauto 8.
    + rewrite Hr. eauto 8.
  - pose proof (CriteriaAgent_runs v5 v4 H5 H4) as Hr.
    destruct (truthy v5 && truthy v4).
    + destruct Hr as [l ->].
      left. repeat split; auto; try discriminate; apply Hkeep; discriminate.
    + rewrite Hr. right. left. auto.
  - destruct ReviewerAgent_runs as [l ->].
    left. repeat split; auto; try discriminate; apply Hkeep; discriminate.
  - pose proof (SummaryAgent_runs v1 v4 v2 v3 v5 v6 v7 H1 H4 H2 H3 H5 H6 H7) as Hr.
    destruct (getitem v3 "city") as [x|e] eqn:Ec;
      [destruct (getitem v3 "state") as [y|e] eqn:Es|].
    + destruct Hr as [l ->]. right. right.
      split; [reflexivity|]. split; [reflexivity|]. split.
      * apply well_formed_insert; [assumption|discriminate].
      * eexists. split; [apply lookup_insert_eq|].
        apply summary_text_not_empty.
    + rewrite Hr. eauto 8.
    + rewrite Hr. eauto 8.
Qed.

End Agents.

(** ** Runs of sequences of the program's agents *)

Section ConcreteFlow.

Variable py_repr : pyval -> string.
Variable specs : list (agent_class * string).

Let agents : list MockAgent := instantiate py_repr specs.

Lemma flow_loop_concrete :
  forall n i trace w,
    well_formed w -> attrs w !! "final_summary" = Some PNone ->
    length specs <= i + n ->
    exists r, flow_loop n agents i trace w = Some r /\ flow_post agents r.
Proof.
  induction n as [|n IH]; intros i trace w Hwf Hfs Hlen.
  - rewrite flow_loop_end by (unfold agents, instantiate; rewrite length_map; lia).
    eexists. split; [reflexivity|]. exact Hfs.
  - simpl. destruct (agents !! i) as [a|] eqn:Ha;
      [|eexists; split; [reflexivity|exact Hfs]].
    assert (Hnew : exists c nm, a = new py_repr c nm).
    { unfold agents, instantiate in Ha. rewrite list_lookup_fmap in Ha.
      destruct (specs !! i) as [[c nm]|]; [|discriminate].
      inversion Ha. eauto. }
    destruct Hnew as (c & nm & ->).
    pose proof (execute_classified nm (announce (new py_repr c nm) w)
                  (well_formed_log w _ Hwf) py_repr c) as Hcls.
    unfold iteration.
    destruct (execute (new py_repr c nm) (announce (new py_repr c nm) w))
      as [[s|e] w2] eqn:Hex.
    + destruct Hcls as [([->| ->] & _ & Hwf2 & Hfs2)
                       |[(-> & Hat)|(-> & _ & Hwf2 & txt & Htxt & Hne)]];
        cbn [String.eqb Ascii.eqb Bool.eqb andb orb].
      * apply IH; [assumption| |lia]. rewrite Hfs2. exact Hfs.
      * apply IH; [assumption| |lia]. rewrite Hfs2. exact Hfs.
      * eexists. split; [reflexivity|]. unfold flow_post. simpl.
        rewrite Hat. exact Hfs.
      * eexists. split; [reflexivity|]. unfold flow_post. simpl. eauto.
    + destruct Hcls as (-> & _ & _).
      eexists. split; [reflexivity|]. unfold flow_post. simpl.
      split; [exact Hfs|]. exists (new py_repr c nm).
      split; [assumption|]. rewrite last_snoc. reflexivity.
Qed.

End ConcreteFlow.

(** The text printed at the end of a run whose loop left the summary in
    the state described by [flow_post]. *)
Lemma print_summary_after py_repr agents r :
  flow_post agents r ->
  exists out, print_summary py_repr (final r) = (Returned out, final r)
    /\ (exit r = FlowComplete ->
          attrs (final r) !! "final_summary" = Some (PStr out) /\ out <> "")
    /\ (exit r <> FlowComplete -> out = abort_notice).
Proof.
  unfold flow_post, print_summary, bind, CareerState.getattr, ret.
  destruct (exit r) as [| |e|].
  - intros (txt & -> & Hne). exists txt.
    destruct txt; [contradiction|]. cbn. repeat split; auto. contradiction.
  - intros ->. exists abort_notice. repeat split; auto; discriminate.
  - intros [-> _]. exists abort_notice. repeat split; auto; discriminate.
  - intros ->. exists abort_notice. repeat split; auto; discriminate.
Qed.

(** The canonical run, whatever was logged before it. *)
Lemma canonical_run py_repr previous_log :
  exists l,
    run_career_builder_helper py_repr 7 previous_log =
      Some (FlowResult FlowComplete 6 (seq 0 7) (World expected_state l),
            Returned expected_summary).
Proof. eexists. vm_compute. reflexivity. Qed.

Lemma run_flow_more_fuel py_repr fuel fuel' agents w res :
  run_flow py_repr fuel agents w = Some res -> fuel <= fuel' ->
  run_flow py_repr fuel' agents w = Some res.
Proof.
  unfold run_flow. intros H Hle.
  destruct (flow_loop fuel agents 0 [] _) as [r|] eqn:Hr; [|discriminate].
  rewrite (flow_loop_more_fuel _ _ _ _ _ _ _ Hr Hle). assumption.
Qed.

(** C7. No fault leaves the orchestrator. For every sequence built from
    the program's agent classes (the sequence of the entry point among
    them), run on a fresh state after any earlier log: the run returns,
    within [length] calls of [execute], and prints a text; when the loop
    was left through FLOW_COMPLETE the text is the non-empty summary
    stored in [final_summary]; when it was left through ERROR_STATE or
    through the except clause the text is the abort notice; a fault of
    a step is caught by the except clause, which logs it at CRITICAL as
    its last record and leaves the loop. The entry point itself
    completes and prints the summary. *)
Theorem orchestrator_contains_faults (py_repr : pyval -> string)
    (specs : list (agent_class * string)) (previous_log : list log_record) :
  (exists r out,
     run_flow py_repr (length specs) (instantiate py_repr specs)
              (World CareerState.__init__ previous_log)
       = Some (r, Returned out)
     /\ (exit r = FlowComplete ->
           attrs (final r) !! "final_summary" = Some (PStr out) /\ out <> "")
     /\ (exit r = ErrorState \/ (exists e, exit r = UnhandledException e) ->
           out = abort_notice)
     /\ (forall e, exit r = UnhandledException e ->
           exists a, instantiate py_repr specs !! cursor r = Some a
             /\ last (log (final r)) =
                Some (LogRecord CRITICAL logger
                        [Lit "Unhandled exception in "; Lit (name a); Lit ": ";
                         Exc e])))
  /\ (forall (agent : MockAgent) i w e,
        result_of agent w = Raised e ->
        fst (iteration agent i w) = Break (UnhandledException e)
        /\ machine_of_exit (UnhandledException e) = HALTED_ERROR
        /\ last (log (snd (iteration agent i w))) =
           Some (LogRecord CRITICAL logger
                   [Lit "Unhandled exception in "; Lit (name agent); Lit ": ";
                    Exc e]))
  /\ (forall fuel, exists r out,
        run_career_builder_helper py_repr (7 + fuel) previous_log
          = Some (r, Returned out)
        /\ exit r = FlowComplete
        /\ attrs (final r) !! "final_summary" = Some (PStr out)).
Proof.
  split; [|split].
  - unfold run_flow.
    destruct (flow_loop_concrete py_repr specs (length specs) 0 []
                (snd (emit INFO logger
                        [Lit "Starting Career Builder Helper Agentic Flow..."]
                        (World CareerState.__init__ previous_log))))
      as (r & Hr & Hpost); [apply well_formed_init|reflexivity|lia|].
    rewrite Hr.
    destruct (print_summary_after py_repr _ r Hpost) as (out & Hout & Hc & Ha).
    exists r, out. rewrite Hout. split; [reflexivity|].
    split; [assumption|]. split.
    + intros [He|[e He]]; apply Ha; rewrite He; discriminate.
    + intros e He. unfold flow_post in Hpost. rewrite He in Hpost.
      apply Hpost.
  - intros agent i w e He. rewrite (iteration_raised agent i w e He).
    split; [reflexivity|]. split; [reflexivity|]. cbn [snd log]. apply last_snoc.
  - intros fuel. destruct (canonical_run py_repr previous_log) as [l Hl].
    unfold run_career_builder_helper in *.
    eapply run_flow_more_fuel in Hl; [|apply (Nat.le_add_r 7 fuel)].
    eexists _, _. split; [exact Hl|]. split; reflexivity.
Qed.

(** C10. Two runs of the entry point, whatever was logged before each
    and however large the bound on the calls of [execute] (from seven
    on), end in the same state and print the same text: the eight fields
    hold the mock constants and the summary composed from them, which
    is the text printed. *)
Theorem run_is_deterministic (py_repr : pyval -> string)
    (log1 log2 : list log_record) (fuel1 fuel2 : nat) :
  exists r1 r2 out,
    run_career_builder_helper py_repr (7 + fuel1) log1 = Some (r1, Returned out)
    /\ run_career_builder_helper py_repr (7 + fuel2) log2 = Some (r2, Returned out)
    /\ attrs (final r1) = attrs (final r2)
    /\ attrs (final r1) = expected_state
    /\ out = expected_summary
    /\ Forall (fun f => exists v, attrs (final r1) !! f = Some v /\ v <> PNone)
              CareerState.fields.
Proof.
  destruct (canonical_run py_repr log1) as [l1 H1].
  destruct (canonical_run py_repr log2) as [l2 H2].
  unfold run_career_builder_helper in *.
  eapply run_flow_more_fuel in H1; [|apply (Nat.le_add_r 7 fuel1)].
  eapply run_flow_more_fuel in H2; [|apply (Nat.le_add_r 7 fuel2)].
  eexists _, _, _. split; [exact H1|]. split; [exact H2|].
  cbn [final attrs]. repeat split.
  unfold CareerState.fields.
  repeat (apply Forall_cons; split;
          [eexists; split; [vm_compute; reflexivity|discriminate]|]).
  apply Forall_nil. exact I.
Qed.

(** Decides a closed decidable proposition by evaluation. *)
Ltac decide_goal :=
  match goal with
  | |- ?P => apply (@bool_decide_unpack P _); vm_compute; exact I
  end.

(** ** The steps *)

(** C2, as amended. The steps have no fault boundary of their own. On a
    well-formed state the [execute] of every class either returns one of
    the four signal strings or raises; it raises only in
    CollegeResearchAgent and SummaryAgent, only with the fault of
    [user_location['city']] or [user_location['state']], and then
    leaves the world as it found it. A fault that a step raises is
    caught by the loop, which logs it at CRITICAL and stops. *)
Theorem execute_returns_signal_or_subscript_fault (py_repr : pyval -> string)
    (c : agent_class) (nm : string) (w : world) :
  well_formed w ->
  match execute (new py_repr c nm) w with
  | (Returned s, _) => s ∈ control_signals
  | (Raised e, w') =>
      w' = w
      /\ (c = CollegeResearchAgent \/ c = SummaryAgent)
      /\ exists u, attrs w !! "user_location" = Some u
                   /\ (getitem u "city" = Raised e \/ getitem u "state" = Raised e)
  end
  /\ (forall i e,
        result_of (new py_repr c nm) w = Raised e ->
        fst (iteration (new py_repr c nm) i w) = Break (UnhandledException e)
        /\ last (log (snd (iteration (new py_repr c nm) i w))) =
           Some (LogRecord CRITICAL logger
                   [Lit "Unhandled exception in "; Lit nm; Lit ": "; Exc e])).
Proof.
  intros Hwf. split.
  - pose proof (execute_classified nm w Hwf py_repr c) as H.
    destruct (execute (new py_repr c nm) w) as [[s|e] w']; [|exact H].
    unfold control_signals.
    destruct H as [([->| ->] & _)|[(-> & _)|(-> & _)]]; decide_goal.
  - intros i e He. rewrite (iteration_raised _ i w e He).
    split; [reflexivity|]. cbn [snd log]. apply last_snoc.
Qed.

(** C3, as amended. On a well-formed state: StreamResearchAgent,
    CollegeResearchAgent and CriteriaAgent test the fields of
    [validates], and when one of them is [None] or empty they return
    ERROR_STATE, write no attribute and log one ERROR record naming the
    deficiency; LocationAgent tests nothing: whatever
    [suggested_streams] holds, it writes [user_location] and
    [target_stream] and returns NEXT_STATE. *)
Theorem validating_agents_stop_on_absent_input (py_repr : pyval -> string)
    (nm : string) (w : world) :
  well_formed w ->
  (forall c f v,
     f ∈ validates c -> attrs w !! f = Some v -> truthy v = false ->
     execute (new py_repr c nm) w =
       (Returned "ERROR_STATE",
        World (attrs w)
              (log w ++ [LogRecord ERROR (agent_logger nm) [Lit (deficiency c)]])))
  /\ (exists l, execute (new py_repr LocationAgent nm) w =
        (Returned "NEXT_STATE",
         World (<["target_stream" := PStr mock_selection]>
                  (<["user_location" := mock_location]> (attrs w))) l)).
Proof.
  intros Hwf. split.
  - intros c f v Hf Hv Hfalse.
    read_field Hwf "interest_area" v1 H1.
    read_field Hwf "user_location" v3 H3.
    read_field Hwf "target_stream" v4 H4.
    read_field Hwf "college_results" v5 H5.
    destruct c; cbn [validates] in Hf; cbn [new execute class_execute];
      try (apply elem_of_nil in Hf; contradiction).
    + apply list_elem_of_singleton in Hf. subst f.
      rewrite H1 in Hv. inversion Hv; subst v1.
      pose proof (StreamResearchAgent_runs nm w Hwf v H1) as Hr.
      rewrite Hfalse in Hr. exact Hr.
    + pose proof (CollegeResearchAgent_runs nm w Hwf v4 v3 H4 H3) as Hr.
      assert (Hb : truthy v4 && truthy v3 = false).
      { apply elem_of_cons in Hf as [->|Hf];
          [|apply list_elem_of_singleton in Hf; subst f].
        - rewrite H4 in Hv. inversion Hv; subst. rewrite Hfalse. reflexivity.
        - rewrite H3 in Hv. inversion Hv; subst. rewrite Hfalse.
          apply andb_false_r. }
      rewrite Hb in Hr. exact Hr.
    + pose proof (CriteriaAgent_runs nm w Hwf v5 v4 H5 H4) as Hr.
      assert (Hb : truthy v5 && truthy v4 = false).
      { apply elem_of_cons in Hf as [->|Hf];
          [|apply list_elem_of_singleton in Hf; subst f].
        - rewrite H5 in Hv. inversion Hv; subst. rewrite Hfalse. reflexivity.
        - rewrite H4 in Hv. inversion Hv; subst. rewrite Hfalse.
          apply andb_false_r. }
      rewrite Hb in Hr. exact Hr.
  - apply LocationAgent_runs. assumption.
Qed.

(** ** The state object, continued *)

(** C1, at the failing input. [update_state(update_state="x")] on a
    fresh object: the name is no field, yet [hasattr] finds the method
    of that name, so the entry is written into the object, no warning
    is logged, and the next agent that calls [update_state] raises. *)
Theorem update_state_accepts_method_name :
  ("update_state" ∉ CareerState.fields)
  /\ attrs (World CareerState.__init__ []) !! "update_state" = None
  /\ CareerState.update_state [("update_state", PStr "x")]
       (World CareerState.__init__ []) =
     (Returned tt,
      World (<["update_state" := PStr "x"]> CareerState.__init__)
            [LogRecord INFO logger
               [Lit "State updated: ";
                Fmt (PDict [("update_state", PStr "x")])]])
  /\ (<["update_state" := PStr "x"]> CareerState.__init__ : gmap string pyval)
     <> CareerState.__init__
  /\ fst (InterestAgent_execute "A1_InterestCapture"
            (snd (CareerState.update_state [("update_state", PStr "x")]
                    (World CareerState.__init__ []))))
     = Raised (TypeError Call (PStr "x")).
Proof.
  rewrite update_state_accepted by (first [reflexivity | right; decide_goal]).
  cbn [fst snd attrs log app].
  split; [decide_goal|]. split; [reflexivity|]. split; [reflexivity|]. split.
  - intros H.
    assert (Hl : (<["update_state" := PStr "x"]> CareerState.__init__
                    : gmap string pyval) !! "update_state" = Some (PStr "x"))
      by apply lookup_insert_eq.
    rewrite H in Hl. discriminate.
  - unfold InterestAgent_execute, bind, CareerState.call_update_state.
    cbn [attrs]. rewrite lookup_insert_eq. reflexivity.
Qed.

(** ** The retry options and the retry policy *)

(** C9. The options that [setup_adk_environment] builds are the default
    configuration of the specification: 5 attempts, base 7, initial
    delay 1, and the codes 429, 500, 503 and 504, no other. *)
Theorem retry_options_are_default :
  RetryPolicy.of_options http_retry_options = RetryPolicy.default_configuration
  /\ attempts http_retry_options = 5
  /\ exp_base http_retry_options = 7
  /\ options_initial_delay http_retry_options = 1
  /\ (forall code, code ∈ http_status_codes http_retry_options
                   <-> code = 429 \/ code = 500 \/ code = 503 \/ code = 504).
Proof.
  split; [|split; [reflexivity|split; [reflexivity|split; [reflexivity|]]]].
  - unfold RetryPolicy.of_options, RetryPolicy.default_configuration,
      http_retry_options. cbn [attempts exp_base options_initial_delay
                                 initial_delay http_status_codes].
    reflexivity.
  - intros code. unfold http_retry_options. cbn [http_status_codes].
    rewrite !elem_of_cons, elem_of_nil. tauto.
Qed.

Section RetryBound.

Import RetryPolicy.

Context {Service T : Type}.
Variable policy : configuration.
Variable operation : Service -> result T * Service.

(** One round of the algorithm. *)
Lemma run_attempts_step attempt_index s waited :
  run_attempts policy operation attempt_index s waited =
    match operation s with
    | (Ok v, s') => RetryRun (Success v) (attempt_index + 1) waited s'
    | (Failure code, s') =>
        if decide (code ∈ retryable_codes policy
                   /\ attempt_index < maximum_attempts policy)
        then
          if decide (attempt_index + 1 < maximum_attempts policy)
          then run_attempts policy operation (attempt_index + 1) s'
                            (waited ++ [delay policy attempt_index])
          else RetryRun (FatalExternalError code (attempt_index + 1))
                        (attempt_index + 1)
                        (waited ++ [delay policy attempt_index]) s'
        else RetryRun (FatalExternalError code (attempt_index + 1))
                      (attempt_index + 1) waited s'
    end.
Proof.
  simp run_attempts.
  destruct (operation s) as [[v|code] s']; simpl; [reflexivity|].
  destruct (decide _); simpl; [|reflexivity].
  destruct (decide _); reflexivity.
Qed.

Hypothesis always_retryable :
  forall s, exists code, fst (operation s) = Failure code
                         /\ code ∈ retryable_codes policy.

(** From attempt [attempt_index] on, the remaining attempts are all
    made, each followed by its wait; the failure returned is that of
    the last attempt. *)
Lemma run_attempts_exhausts :
  forall n attempt_index s waited,
    attempt_index + n + 1 = maximum_attempts policy ->
    let r := run_attempts policy operation attempt_index s waited in
    calls r = maximum_attempts policy
    /\ waits r = waited ++ map (delay policy) (seq attempt_index (n + 1))
    /\ service r = after_calls operation (n + 1) s
    /\ exists code,
         fst (operation (after_calls operation n s)) = Failure code
         /\ returned r = FatalExternalError code (maximum_attempts policy).
Proof.
  induction n as [|n IH]; intros idx s waited Hn; cbv zeta;
    rewrite run_attempts_step;
    destruct (always_retryable s) as (code & Hop & Hcode);
    destruct (operation s) as [res s'] eqn:Hs; simpl in Hop; subst res.
  - destruct (decide _) as [_|Hno]; [|exfalso; apply Hno; split; [assumption|lia]].
    destruct (decide _) as [Hlt|_]; [lia|].
    cbn [calls waits returned service after_calls Nat.add].
    rewrite Hs. cbn [fst snd].
    split; [lia|]. split; [reflexivity|]. split; [reflexivity|].
    exists code. split; [reflexivity|].
    replace (idx + 1) with (maximum_attempts policy) by lia. reflexivity.
  - destruct (decide _) as [_|Hno]; [|exfalso; apply Hno; split; [assumption|lia]].
    destruct (decide _) as [_|Hno]; [|lia].
    destruct (IH (idx + 1) s' (waited ++ [delay policy idx]))
      as (Hc & Hw & Hsv & Hr); [lia|].
    split; [assumption|]. split; [|split].
    + rewrite Hw, <- app_assoc. cbn [app].
      replace (idx + 1) with (S idx) by lia.
      replace (S n + 1) with (S (n + 1)) by lia. reflexivity.
    + rewrite Hsv. replace (S n + 1) with (S (n + 1)) by lia.
      cbn [after_calls]. rewrite Hs. reflexivity.
    + cbn [after_calls]. rewrite Hs. exact Hr.
Qed.

End RetryBound.

(** C8. When every attempt fails with a retryable code,
    [execute_with_retry] attempts the operation exactly
    [maximum_attempts] times, each attempt followed by its wait
    [initial_delay * exponential_base ^ i], i = 0, ...,
    maximum_attempts - 1, so that the total wait is the sum of these
    [maximum_attempts] terms, and then returns the failure of the last
    attempt as a FatalExternalError tagged with [maximum_attempts],
    leaving the service where these attempts have put it; a second call
    on that state makes the same number of attempts and the same waits:
    its counter starts again at zero. *)
Theorem retry_bound {Service T : Type} (policy : RetryPolicy.configuration)
    (operation : Service -> RetryPolicy.result T * Service) (s : Service) :
  0 < RetryPolicy.maximum_attempts policy ->
  (forall s0, exists code, fst (operation s0) = RetryPolicy.Failure code
                           /\ code ∈ RetryPolicy.retryable_codes policy) ->
  let n := RetryPolicy.maximum_attempts policy in
  let expected_waits := map (RetryPolicy.delay policy) (seq 0 n) in
  let first := RetryPolicy.execute_with_retry policy operation s in
  let second :=
    RetryPolicy.execute_with_retry policy operation (RetryPolicy.service first) in
  (RetryPolicy.calls first = n
   /\ RetryPolicy.waits first = expected_waits
   /\ RetryPolicy.total_wait first = list_sum expected_waits
   /\ RetryPolicy.service first = RetryPolicy.after_calls operation n s
   /\ exists code,
        fst (operation (RetryPolicy.after_calls operation (n - 1) s))
          = RetryPolicy.Failure code
        /\ RetryPolicy.returned first = RetryPolicy.FatalExternalError code n)
  /\ (RetryPolicy.calls second = n
      /\ RetryPolicy.waits second = expected_waits
      /\ RetryPolicy.service second
         = RetryPolicy.after_calls operation n
             (RetryPolicy.after_calls operation n s)
      /\ exists code,
           fst (operation (RetryPolicy.after_calls operation (n - 1)
                             (RetryPolicy.after_calls operation n s)))
             = RetryPolicy.Failure code
           /\ RetryPolicy.returned second = RetryPolicy.FatalExternalError code n).
Proof.
  intros Hpos Hfail. cbv zeta. unfold RetryPolicy.execute_with_retry.
  destruct (run_attempts_exhausts policy operation Hfail
              (RetryPolicy.maximum_attempts policy - 1) 0 s [])
    as (Hc & Hw & Hs & Hr); [lia|].
  replace (RetryPolicy.maximum_attempts policy - 1 + 1)
    with (RetryPolicy.maximum_attempts policy) in Hw, Hs by lia.
  split.
  - unfold RetryPolicy.total_wait. rewrite Hw. auto.
  - rewrite Hs.
    destruct (run_attempts_exhausts policy operation Hfail
                (RetryPolicy.maximum_attempts policy - 1) 0
                (RetryPolicy.after_calls operation
                   (RetryPolicy.maximum_attempts policy) s) [])
      as (Hc' & Hw' & Hs' & Hr'); [lia|].
    replace (RetryPolicy.maximum_attempts policy - 1 + 1)
      with (RetryPolicy.maximum_attempts policy) in Hw', Hs' by lia.
    auto.
Qed.

(** ** Concrete runs *)

(** C2, counterexample: on a fresh state, where [user_location] is
    [None], [SummaryAgent.execute] raises the TypeError of
    [None['city']] instead of returning a signal. *)
Lemma summary_agent_raises_without_location :
  execute (new plain_repr SummaryAgent "A7_Summary") (World CareerState.__init__ [])
    = (Raised (TypeError Subscript PNone), World CareerState.__init__ [])
  /\ ~ (exists s w', execute (new plain_repr SummaryAgent "A7_Summary")
                             (World CareerState.__init__ [])
                     = (Returned s, w')).
Proof.
  assert (H : execute (new plain_repr SummaryAgent "A7_Summary")
                      (World CareerState.__init__ [])
              = (Raised (TypeError Subscript PNone), World CareerState.__init__ []))
    by (vm_compute; reflexivity).
  split; [exact H|]. intros (s & w' & Hs). rewrite H in Hs. discriminate.
Qed.

(** C2, witness: the fresh state is well formed; there SummaryAgent is
    in the raising case of the theorem, and the loop catches the fault. *)
Lemma execute_returns_signal_or_subscript_fault_witness :
  well_formed (World CareerState.__init__ [])
  /\ fst (iteration (new plain_repr SummaryAgent "A7_Summary") 6
                    (World CareerState.__init__ []))
     = Break (UnhandledException (TypeError Subscript PNone)).
Proof.
  split; [apply well_formed_init|].
  apply (proj2 (execute_returns_signal_or_subscript_fault plain_repr SummaryAgent
                  "A7_Summary" (World CareerState.__init__ [])
                  (well_formed_init []))).
  vm_compute. reflexivity.
Defined.

(** C3, counterexample: on a fresh state [suggested_streams], which
    LocationAgent reads, is [None]; the agent nevertheless writes
    [user_location] and [target_stream] and returns NEXT_STATE. *)
Lemma location_agent_runs_without_streams :
  ("suggested_streams" ∈ reads LocationAgent)
  /\ attrs (World CareerState.__init__ []) !! "suggested_streams" = Some PNone
  /\ fst (LocationAgent_execute "A3_LocationCapture" (World CareerState.__init__ []))
     = Returned "NEXT_STATE"
  /\ fst (LocationAgent_execute "A3_LocationCapture" (World CareerState.__init__ []))
     <> Returned "ERROR_STATE"
  /\ attrs (snd (LocationAgent_execute "A3_LocationCapture"
                   (World CareerState.__init__ []))) !! "user_location"
     = Some mock_location
  /\ attrs (snd (LocationAgent_execute "A3_LocationCapture"
                   (World CareerState.__init__ []))) !! "target_stream"
     = Some (PStr mock_selection).
Proof.
  split; [decide_goal|]. split; [vm_compute; reflexivity|].
  assert (H : fst (LocationAgent_execute "A3_LocationCapture"
                     (World CareerState.__init__ [])) = Returned "NEXT_STATE")
    by (vm_compute; reflexivity).
  split; [exact H|]. split; [rewrite H; discriminate|].
  split; vm_compute; reflexivity.
Qed.

(** C3, witness: on the fresh state StreamResearchAgent finds
    [interest_area] absent and stops with its ERROR record. *)
Lemma validating_agents_stop_on_absent_input_witness :
  well_formed (World CareerState.__init__ [])
  /\ execute (new plain_repr StreamResearchAgent "A2_StreamResearch")
             (World CareerState.__init__ [])
     = (Returned "ERROR_STATE",
        World CareerState.__init__
              [LogRecord ERROR "ADK.A2_StreamResearch"
                 [Lit "Interest area missing. Cannot research streams."]]).
Proof.
  split; [apply well_formed_init|].
  apply (proj1 (validating_agents_stop_on_absent_input plain_repr
                  "A2_StreamResearch" (World CareerState.__init__ [])
                  (well_formed_init []))
           StreamResearchAgent "interest_area" PNone).
  - decide_goal.
  - vm_compute. reflexivity.
  - reflexivity.
Defined.

(** ** The results of the program's agents *)

Lemma returns_in_ret signals s : s ∈ signals -> returns_in signals (ret s).
Proof. intros H w. exact H. Qed.

Lemma returns_in_bind {A} signals (c : M A) (k : A -> M string) :
  (forall a, returns_in signals (k a)) -> returns_in signals (bind c k).
Proof.
  intros H w. unfold bind. destruct (c w) as [[a|e] w']; [apply H|exact I].
Qed.

Ltac signals :=
  repeat first
    [ apply returns_in_bind; intros ?
    | apply returns_in_ret; decide_goal
    | match goal with
      | |- returns_in _ (if ?b then _ else _) => destruct b
      end ].

(** Every result of the program's agents is one of the four signals,
    in whatever world they run. *)
Lemma concrete_results_are_signals py_repr c nm :
  returns_in control_signals (execute (new py_repr c nm)).
Proof.
  destruct c; cbn [new execute class_execute];
    unfold InterestAgent_execute, StreamResearchAgent_execute,
      LocationAgent_execute, CollegeResearchAgent_execute,
      CriteriaAgent_execute, ReviewerAgent_execute, SummaryAgent_execute;
    signals.
Qed.

(** C4, witness: the sequence of the entry point, on a fresh state. *)
Lemma loop_terminates_within_length_witness :
  exists r,
    flow_loop 7 (agent_sequence plain_repr) 0 [] (World CareerState.__init__ [])
      = Some r
    /\ length (executed r) <= 7.
Proof.
  assert (Hsig : forall a w', a ∈ agent_sequence plain_repr ->
            match fst (execute a w') with
            | Returned s => s ∈ control_signals
            | Raised _ => True
            end).
  { intros a w' Hin. unfold agent_sequence in Hin.
    repeat (apply elem_of_cons in Hin as [->|Hin];
            [apply concrete_results_are_signals|]).
    apply elem_of_nil in Hin. contradiction. }
  destruct (proj1 (loop_terminates_within_length (agent_sequence plain_repr)
                     (World CareerState.__init__ []) Hsig) 7 (le_n 7))
    as (r & Hr & Hlen & _).
  exists r. split; assumption.
Defined.

(** C5, witness: InterestAgent, then CollegeResearchAgent, which finds
    no stream and no location, then SummaryAgent, which is never called. *)
Lemma halt_on_error_witness :
  exists r,
    flow_loop 3 [new plain_repr InterestAgent "A1_InterestCapture";
                 new plain_repr CollegeResearchAgent "A4_CollegeSearch";
                 new plain_repr SummaryAgent "A7_Summary"]
              0 [] (World CareerState.__init__ []) = Some r
    /\ exit r = ErrorState
    /\ executed r = [0; 1].
Proof.
  destruct (halt_on_error
              [new plain_repr InterestAgent "A1_InterestCapture";
               new plain_repr CollegeResearchAgent "A4_CollegeSearch";
               new plain_repr SummaryAgent "A7_Summary"]
              (World CareerState.__init__ []) 1) with (fuel := 3)
    as (r & Hr & Hexit & _ & Hex & _).
  - intros j Hj. assert (j = 0) as -> by lia. left. vm_compute. reflexivity.
  - vm_compute. reflexivity.
  - lia.
  - exists r. auto.
Defined.

(** C6, witness: the sequence of the entry point stops at its seventh
    agent. *)
Lemma stop_on_complete_witness :
  exists r,
    flow_loop 7 (agent_sequence plain_repr) 0 [] (World CareerState.__init__ [])
      = Some r
    /\ exit r = FlowComplete
    /\ cursor r = 6
    /\ machine_of_exit (exit r) = HALTED_SUCCESS.
Proof.
  destruct (stop_on_complete (agent_sequence plain_repr)
              (World CareerState.__init__ []) 6) with (fuel := 7)
    as (r & Hr & Hexit & Hcur & _ & Hm).
  - intros j Hj.
    do 6 (destruct j as [|j];
          [first [left; vm_compute; reflexivity
                 |right; vm_compute; reflexivity]|]).
    lia.
  - vm_compute. reflexivity.
  - lia.
  - exists r. auto.
Defined.

(** C8, witness: the default configuration and the operation that
    always answers 503: five attempts, and the waits 1, 7, 49, 343 and
    2401. *)
Lemma retry_bound_witness :
  0 < RetryPolicy.maximum_attempts RetryPolicy.default_configuration
  /\ RetryPolicy.calls
       (RetryPolicy.execute_with_retry RetryPolicy.default_configuration always_503 0)
     = 5
  /\ RetryPolicy.total_wait
       (RetryPolicy.execute_with_retry RetryPolicy.default_configuration always_503 0)
     = 1 + 7 + 49 + 343 + 2401.
Proof.
  assert (Hpos : 0 < RetryPolicy.maximum_attempts RetryPolicy.default_configuration)
    by (simpl; lia).
  split; [exact Hpos|].
  destruct (retry_bound RetryPolicy.default_configuration always_503 0 Hpos)
    as [(Hc & _ & Ht & _) _].
  - intros s0. exists 503. split; [reflexivity|]. decide_goal.
  - split; [exact Hc|exact Ht].
Defined.

(** * Further properties *)

(** ** [update_state] on keyword arguments with ordinary names *)

(** Writing under a name that [hasattr] accepts does not change what
    [hasattr] answers. *)
Lemma accepted_insert (m : gmap string pyval) k v k' :
  accepted m k = true -> accepted (<[k := v]> m) k' = accepted m k'.
Proof.
  unfold accepted. intros Hk. destruct (decide (k = k')) as [->|Hne].
  - rewrite Hk. rewrite (bool_decide_eq_true_2 (is_Some (<[k' := v]> m !! k'))).
    + reflexivity.
    + rewrite lookup_insert_eq. eauto.
  - rewrite lookup_insert_ne by assumption. reflexivity.
Qed.

(** The loop of [update_state] when no key begins with two
    underscores: the entries that [hasattr] accepts in the world of the
    call are assigned in order, the others produce a warning each. *)
Lemma update_state_loop kwargs :
  Forall (fun e => ordinary (fst e) = true) kwargs ->
  forall w,
    for_each kwargs (fun '(key, value) =>
      bind (CareerState.hasattr key) (fun known =>
        if known then CareerState.setattr key value
        else emit WARNING logger
               [Lit "Attempted to set unknown state key: "; Lit key])) w
    = (Returned tt,
       World (assign_all (attrs w)
                (List.filter (fun e => accepted (attrs w) (fst e)) kwargs))
             (log w ++ map (fun e => unknown_key_warning (fst e))
                           (List.filter (fun e => negb (accepted (attrs w) (fst e)))
                                        kwargs))).
Proof.
  induction 1 as [|[k v] kwargs Hk Hord IH]; intros w.
  - simpl. rewrite app_nil_r. destruct w; reflexivity.
  - cbn [for_each]. unfold bind at 1. unfold bind at 1.
    unfold CareerState.hasattr at 1. fold (accepted (attrs w) k).
    cbn [List.filter fst snd]. destruct (accepted (attrs w) k) eqn:Hacc.
    + rewrite setattr_ordinary by exact Hk. rewrite IH. cbn [attrs log negb].
      rewrite (List.filter_ext _ (fun e => accepted (attrs w) (fst e)))
        by (intros e; apply accepted_insert; assumption).
      rewrite (List.filter_ext (fun e => negb (accepted (<[k := v]> (attrs w)) (fst e)))
                 (fun e => negb (accepted (attrs w) (fst e))))
        by (intros e; f_equal; apply accepted_insert; assumption).
      reflexivity.
    + unfold emit at 1. rewrite IH. cbn [attrs log negb map].
      rewrite <- app_assoc. reflexivity.
Qed.

(** What a call of [update_state] does, in full, when no key begins
    with two underscores. *)
Lemma update_state_result kwargs w :
  Forall (fun e => ordinary (fst e) = true) kwargs ->
  CareerState.update_state kwargs w
  = (Returned tt,
     World (assign_all (attrs w)
              (List.filter (fun e => accepted (attrs w) (fst e)) kwargs))
           (log w ++ map (fun e => unknown_key_warning (fst e))
                         (List.filter (fun e => negb (accepted (attrs w) (fst e)))
                                      kwargs)
                  ++ [state_updated kwargs])).
Proof.
  intros Hord. unfold CareerState.update_state, bind.
  rewrite update_state_loop, shown_ordinary by exact Hord.
  unfold emit. cbn [attrs log]. rewrite <- app_assoc. reflexivity.
Qed.

Lemma assign_all_other entries :
  forall (m : gmap string pyval) k,
    k ∉ map fst entries -> assign_all m entries !! k = m !! k.
Proof.
  induction entries as [|[k' v] entries IH]; intros m k Hk; [reflexivity|].
  cbn [assign_all foldl fst snd]. fold (assign_all (<[k' := v]> m) entries).
  cbn [map fst] in Hk. apply not_elem_of_cons in Hk as [Hne Hk].
  rewrite IH by assumption. apply lookup_insert_ne. congruence.
Qed.

Lemma assign_all_last entries :
  forall (m : gmap string pyval) k v,
    NoDup (map fst entries) -> (k, v) ∈ entries ->
    assign_all m entries !! k = Some v.
Proof.
  induction entries as [|[k' v'] entries IH]; intros m k v Hnd Hin.
  - apply elem_of_nil in Hin. contradiction.
  - cbn [assign_all foldl fst snd]. fold (assign_all (<[k' := v']> m) entries).
    cbn [map fst] in Hnd. apply NoDup_cons in Hnd as [Hk' Hnd].
    apply elem_of_cons in Hin as [Heq|Hin].
    + inversion Heq; subst. rewrite assign_all_other by assumption.
      apply lookup_insert_eq.
    + apply IH; assumption.
Qed.

Lemma filter_keys_subset (f : string * pyval -> bool) entries k :
  k ∈ map fst (List.filter f entries) -> k ∈ map fst entries.
Proof.
  rewrite !list_elem_of_In, !in_map_iff. intros (e & He & Hin).
  apply List.filter_In in Hin as [Hin _]. eauto.
Qed.

Lemma filter_keys_NoDup (f : string * pyval -> bool) entries :
  NoDup (map fst entries) -> NoDup (map fst (List.filter f entries)).
Proof.
  induction entries as [|e entries IH]; intros Hnd; [constructor|].
  cbn [map] in Hnd. apply NoDup_cons in Hnd as [Hk Hnd].
  cbn [List.filter]. destruct (f e); [|auto].
  cbn [map]. apply NoDup_cons. split; [|auto].
  intros Hin. apply Hk. eapply filter_keys_subset. exact Hin.
Qed.

(** X1. When no key of [kwargs] begins with two underscores,
    [update_state] does not raise and touches nothing but the names it
    is given and accepts: an attribute whose name is not a key of
    [kwargs], or whose name [hasattr] refuses when the call starts,
    reads after the call as it read before. *)
Theorem update_state_leaves_other_names kwargs w k :
  Forall (fun e => ordinary (fst e) = true) kwargs ->
  k ∉ map fst kwargs \/ accepted (attrs w) k = false ->
  fst (CareerState.update_state kwargs w) = Returned tt
  /\ attrs (snd (CareerState.update_state kwargs w)) !! k = attrs w !! k.
Proof.
  intros Hord Hk. rewrite update_state_result by exact Hord. cbn [fst snd attrs].
  split; [reflexivity|]. apply assign_all_other.
  intros Hin. destruct Hk as [Hk|Hk].
  - apply Hk. eapply filter_keys_subset. exact Hin.
  - apply list_elem_of_In, in_map_iff in Hin as (e & <- & Hin).
    apply List.filter_In in Hin as [_ Hacc]. congruence.
Qed.

(** X2. When no key of [kwargs] begins with two underscores, every
    entry whose name [hasattr] accepts when the call starts is applied,
    also when other entries are refused: with the distinct keys of a
    dict, the attribute holds the entry's value after the call. *)
Theorem update_state_applies_accepted kwargs w k v :
  Forall (fun e => ordinary (fst e) = true) kwargs ->
  NoDup (map fst kwargs) -> (k, v) ∈ kwargs -> accepted (attrs w) k = true ->
  attrs (snd (CareerState.update_state kwargs w)) !! k = Some v.
Proof.
  intros Hord Hnd Hin Hacc. rewrite update_state_result by exact Hord.
  cbn [snd attrs]. apply assign_all_last.
  - apply filter_keys_NoDup. assumption.
  - apply list_elem_of_In, List.filter_In. split.
    + apply list_elem_of_In. assumption.
    + exact Hacc.
Qed.

(** X3. The records of a call whose keys do not begin with two
    underscores: one warning for each refused entry, in the order of
    the entries, then exactly one "State updated" record that shows all
    of [kwargs], the refused entries too, and is also emitted when
    [kwargs] is empty or nothing was applied. *)
Theorem update_state_log kwargs w :
  Forall (fun e => ordinary (fst e) = true) kwargs ->
  log (snd (CareerState.update_state kwargs w))
  = log w
    ++ map (fun e => unknown_key_warning (fst e))
           (List.filter (fun e => negb (accepted (attrs w) (fst e))) kwargs)
    ++ [state_updated kwargs].
Proof. intros Hord. rewrite update_state_result by exact Hord. reflexivity. Qed.

(** X4. When no key of [kwargs] begins with two underscores,
    [update_state] keeps the eight fields, and it keeps the object well
    formed unless it is given the key [update_state] itself. *)
Theorem update_state_keeps_well_formed kwargs w :
  Forall (fun e => ordinary (fst e) = true) kwargs ->
  well_formed w ->
  Forall (fun f => is_Some (attrs (snd (CareerState.update_state kwargs w)) !! f))
         CareerState.fields
  /\ ("update_state" ∉ map fst kwargs ->
      well_formed (snd (CareerState.update_state kwargs w))).
Proof.
  intros Hord [Hf Hm]. rewrite update_state_result by exact Hord.
  cbn [snd attrs].
  assert (Hkeep : forall entries (m : gmap string pyval) f,
             is_Some (m !! f) -> is_Some (assign_all m entries !! f)).
  { induction entries as [|[k' v'] entries IH]; intros m f Hs; [exact Hs|].
    cbn [assign_all foldl fst snd]. apply IH.
    rewrite lookup_insert_is_Some. destruct (decide (k' = f)); auto. }
  assert (Hfields : Forall (fun f => is_Some (assign_all (attrs w)
             (List.filter (fun e => accepted (attrs w) (fst e)) kwargs) !! f))
             CareerState.fields).
  { eapply Forall_impl; [exact Hf|]. intros f Hs. apply Hkeep. exact Hs. }
  split; [exact Hfields|]. intros Hk. split; [exact Hfields|].
  cbn [attrs]. rewrite assign_all_other; [exact Hm|].
  intros Hin. apply Hk. eapply filter_keys_subset. exact Hin.
Qed.

(** ** [update_state] on the names of the interpreter *)

Lemma for_each_app {A} (l1 l2 : list A) (body : A -> M unit) w :
  for_each (l1 ++ l2) body w =
    match for_each l1 body w with
    | (Returned _, w') => for_each l2 body w'
    | (Raised e, w') => (Raised e, w')
    end.
Proof.
  revert w. induction l1 as [|x l1 IH]; intros w; [reflexivity|].
  cbn [app for_each]. unfold bind.
  destruct (body x w) as [[[]|e] w']; [apply IH|reflexivity].
Qed.

Lemma list_to_map_dict_get items k :
  (list_to_map items : gmap string pyval) !! k = dict_get items k.
Proof.
  induction items as [|[k' v] items IH]; [reflexivity|].
  cbn [list_to_map foldr dict_get].
  destruct (String.eqb k' k) eqn:E.
  - apply String.eqb_eq in E. subst. apply lookup_insert_eq.
  - apply String.eqb_neq in E. rewrite lookup_insert_ne by assumption.
    exact IH.
Qed.

(** X15. [update_state] is not atomic. An entry [__class__] passes the
    test of [hasattr] and makes [setattr] raise a TypeError, whatever
    its value: the entries before it (here with ordinary names) stay
    applied and their warnings stay logged, the entries after it are
    never looked at, and no "State updated" record is emitted. *)
Theorem update_state_stops_at_class_entry before v rest w :
  Forall (fun e => ordinary (fst e) = true) before ->
  CareerState.update_state (before ++ ("__class__", v) :: rest) w
  = (Raised (TypeError AsClass v),
     World (assign_all (attrs w)
              (List.filter (fun e => accepted (attrs w) (fst e)) before))
           (log w ++ map (fun e => unknown_key_warning (fst e))
                         (List.filter (fun e => negb (accepted (attrs w) (fst e)))
                                      before))).
Proof.
  intros Hord. unfold CareerState.update_state. unfold bind at 1.
  rewrite for_each_app, update_state_loop by exact Hord.
  cbn [for_each]. unfold bind at 1. unfold bind at 1.
  unfold CareerState.hasattr at 1.
  rewrite (bool_decide_eq_true_2 ("__class__" ∈ CareerState.object_namespace))
    by decide_goal.
  rewrite orb_true_r. reflexivity.
Qed.

Lemma ordinary_not_special k :
  ordinary k = true ->
  String.eqb k "__class__" || String.eqb k "__weakref__"
  || String.eqb k "__dict__" = false.
Proof.
  intros Hk.
  destruct (String.eqb k "__class__") eqn:E1;
    [apply String.eqb_eq in E1; subst; discriminate Hk|].
  destruct (String.eqb k "__weakref__") eqn:E2;
    [apply String.eqb_eq in E2; subst; discriminate Hk|].
  destruct (String.eqb k "__dict__") eqn:E3;
    [apply String.eqb_eq in E3; subst; discriminate Hk|].
  reflexivity.
Qed.

Lemma dict_get_dict_set items k v k' :
  dict_get (dict_set items k v) k'
  = if String.eqb k k' then Some v else dict_get items k'.
Proof.
  induction items as [|[k0 v0] items IH]; cbn [dict_set dict_get].
  - destruct (String.eqb k k'); reflexivity.
  - destruct (String.eqb k0 k) eqn:E0; cbn [dict_get].
    + apply String.eqb_eq in E0. subst k0.
      destruct (String.eqb k k'); reflexivity.
    + destruct (String.eqb k0 k') eqn:E1; [|exact IH].
      apply String.eqb_eq in E1. subst k0. rewrite String.eqb_sym, E0.
      reflexivity.
Qed.

Lemma list_to_map_dict_set items k v :
  (list_to_map (dict_set items k v) : gmap string pyval)
  = <[k := v]> (list_to_map items).
Proof.
  apply map_eq. intros k'.
  rewrite list_to_map_dict_get, dict_get_dict_set.
  destruct (String.eqb k k') eqn:E.
  - apply String.eqb_eq in E. subst. rewrite lookup_insert_eq. reflexivity.
  - apply String.eqb_neq in E. rewrite lookup_insert_ne by assumption.
    symmetry. apply list_to_map_dict_get.
Qed.

(** The writes that follow an entry [__dict__] land in the dict that
    was passed. *)
Lemma assign_all_written_through later :
  Forall (fun e => ordinary (fst e) = true) later ->
  forall items,
    assign_all (list_to_map items)
      (List.filter (fun e => accepted (list_to_map items) (fst e)) later)
    = list_to_map (CareerState.written_through items later).
Proof.
  induction 1 as [|[k v] later Hk Hord IH]; intros items; [reflexivity|].
  cbn [List.filter CareerState.written_through fst].
  rewrite (ordinary_not_special k Hk).
  unfold accepted at 1. rewrite list_to_map_dict_get.
  destruct (_ || _ || _) eqn:Hacc.
  - cbn [assign_all foldl fst snd].
    rewrite (List.filter_ext (fun e => accepted (list_to_map items) (fst e))
               (fun e => accepted (<[k := v]> (list_to_map items)) (fst e))).
    + rewrite <- list_to_map_dict_set. apply IH.
    + intros e. symmetry. apply accepted_insert.
      unfold accepted. rewrite list_to_map_dict_get. exact Hacc.
  - apply IH.
Qed.

Lemma shown_app before later :
  Forall (fun e => ordinary (fst e) = true) before ->
  CareerState.shown (before ++ later) = before ++ CareerState.shown later.
Proof.
  induction 1 as [|[k v] before Hk _ IH]; [reflexivity|].
  cbn [app CareerState.shown]. rewrite IH.
  destruct v as [| |items]; try reflexivity.
  destruct (String.eqb k "__dict__") eqn:E; [|reflexivity].
  apply String.eqb_eq in E. subst. discriminate Hk.
Qed.

(** X16. An entry [__dict__] whose value is a dict passes the test of
    [hasattr] and replaces the instance dictionary by that dict: what
    the call wrote before is lost, and so is every field that the dict
    does not hold. The entries that follow (here with ordinary names)
    are tested against the new dictionary and written into it; after
    the call the object has exactly its items as attributes, and the
    "State updated" record shows the dict with these later writes. *)
Theorem update_state_replaces_instance_dict before items later w :
  Forall (fun e => ordinary (fst e) = true) before ->
  Forall (fun e => ordinary (fst e) = true) later ->
  let kwargs := before ++ ("__dict__", PDict items) :: later in
  let written := CareerState.written_through items later in
  fst (CareerState.update_state kwargs w) = Returned tt
  /\ (forall k,
        attrs (snd (CareerState.update_state kwargs w)) !! k
        = dict_get written k)
  /\ log (snd (CareerState.update_state kwargs w))
     = log w
       ++ map (fun e => unknown_key_warning (fst e))
              (List.filter (fun e => negb (accepted (attrs w) (fst e))) before)
       ++ map (fun e => unknown_key_warning (fst e))
              (List.filter
                 (fun e => negb (accepted (list_to_map items) (fst e))) later)
       ++ [state_updated (before ++ ("__dict__", PDict written) :: later)].
Proof.
  intros Hbefore Hlater. cbv zeta.
  assert (Hrun :
    CareerState.update_state (before ++ ("__dict__", PDict items) :: later) w
    = (Returned tt,
       World (list_to_map (CareerState.written_through items later))
         (log w
          ++ map (fun e => unknown_key_warning (fst e))
               (List.filter (fun e => negb (accepted (attrs w) (fst e))) before)
          ++ map (fun e => unknown_key_warning (fst e))
               (List.filter
                  (fun e => negb (accepted (list_to_map items) (fst e))) later)
          ++ [state_updated
                (before ++ ("__dict__",
                            PDict (CareerState.written_through items later))
                        :: later)]))).
  { unfold CareerState.update_state. unfold bind at 1.
    rewrite for_each_app, update_state_loop by exact Hbefore.
    cbn [for_each]. unfold bind at 1. unfold bind at 1.
    unfold CareerState.hasattr at 1.
    rewrite (bool_decide_eq_true_2 ("__dict__" ∈ CareerState.class_namespace))
      by decide_goal.
    rewrite orb_true_r. cbn [orb].
    unfold CareerState.setattr at 1.
    cbn [String.eqb Ascii.eqb Bool.eqb andb].
    rewrite update_state_loop by exact Hlater.
    cbn [attrs log]. rewrite assign_all_written_through by exact Hlater.
    rewrite shown_app by exact Hbefore. cbn [CareerState.shown].
    cbn [String.eqb Ascii.eqb Bool.eqb andb].
    rewrite shown_ordinary by exact Hlater.
    unfold emit, state_updated. cbn [attrs log].
    rewrite <- !app_assoc. reflexivity. }
  rewrite Hrun. cbn [fst snd attrs log].
  split; [reflexivity|]. split; [|reflexivity].
  intros k. apply list_to_map_dict_get.
Qed.

(** ** The loop on arbitrary agents *)

(** An iteration moves the cursor by zero or one, or leaves the loop. *)
Lemma iteration_cursor agent i w :
  match fst (iteration agent i w) with
  | Next j => j = i \/ j = i + 1
  | Break _ => True
  end.
Proof.
  unfold iteration. destruct (execute agent (announce agent w)) as [[s|e] w2];
    [|exact I].
  destruct (String.eqb s "FLOW_COMPLETE"); [exact I|].
  destruct (String.eqb s "ERROR_STATE"); [exact I|].
  destruct (_ || _); simpl; auto.
Qed.

(** An iteration never leaves the loop by reporting the end of the
    sequence. *)
Lemma iteration_never_ends agent i w w' :
  iteration agent i w <> (Break SequenceEnd, w').
Proof.
  unfold iteration. destruct (execute agent (announce agent w)) as [[s|e] w2];
    [|discriminate].
  destruct (String.eqb s "FLOW_COMPLETE"); [discriminate|].
  destruct (String.eqb s "ERROR_STATE"); [discriminate|].
  destruct (_ || _); discriminate.
Qed.

(** The shape of every run of the loop from cursor [i]. *)
Lemma flow_loop_shape (agents : list MockAgent) :
  forall fuel i trace w r,
    flow_loop fuel agents i trace w = Some r ->
    i <= cursor r <= Nat.max i (length agents)
    /\ exists ex,
         executed r = trace ++ ex
         /\ length ex <= fuel
         /\ walks i ex
         /\ Forall (fun j => j < length agents) ex
         /\ match exit r with
            | SequenceEnd => length agents <= cursor r
            | _ => last ex = Some (cursor r)
            end.
Proof.
  induction fuel as [|fuel IH]; intros i trace w r Hrun.
  - simpl in Hrun. destruct (agents !! i) eqn:Ha; [discriminate|].
    inversion Hrun; subst; clear Hrun. cbn [cursor executed exit].
    apply lookup_ge_None in Ha.
    split; [lia|]. exists []. rewrite app_nil_r.
    split; [reflexivity|]. split; [simpl; lia|]. split; [exact I|].
    split; [constructor|exact Ha].
  - simpl in Hrun. destruct (agents !! i) as [agent|] eqn:Ha.
    + pose proof (iteration_cursor agent i w) as Hcur.
      assert (Hi : i < length agents) by (eapply lookup_lt_Some; eauto).
      destruct (iteration agent i w) as [[j|how] w'] eqn:Hit; simpl in Hcur.
      * apply IH in Hrun as (Hle & ex & Hex & Hlen & Hw & Hall & Hexit).
        split; [lia|]. exists (i :: ex).
        split; [rewrite Hex, <- app_assoc; reflexivity|].
        split; [simpl; lia|].
        split; [split; [reflexivity|]; destruct Hcur as [->| ->]; auto|].
        split; [constructor; assumption|].
        destruct (exit r); try exact Hexit;
          (destruct ex as [|x ex]; [discriminate Hexit|exact Hexit]).
      * inversion Hrun; subst; clear Hrun. cbn [cursor executed exit].
        split; [lia|]. exists [i].
        split; [reflexivity|]. split; [simpl; lia|].
        split; [split; [reflexivity|left; exact I]|].
        split; [repeat constructor; exact Hi|].
        destruct how; try reflexivity.
        exfalso. eapply iteration_never_ends. exact Hit.
    + inversion Hrun; subst; clear Hrun. cbn [cursor executed exit].
      apply lookup_ge_None in Ha.
      split; [lia|]. exists []. rewrite app_nil_r.
      split; [reflexivity|]. split; [simpl; lia|]. split; [exact I|].
      split; [constructor|exact Ha].
Qed.

(** X5. Whatever the agents return or raise, a run of the loop that
    ends never calls an index outside the sequence, calls at most
    [fuel] of them, starts at 0 and from one call to the next stays on
    the same index or moves to the next one (it never goes back and
    never skips an agent); it ends with the cursor on the agent called
    last when it leaves through a [break], and with the cursor equal
    to the length of the sequence otherwise. *)
Theorem loop_never_skips_or_overruns (agents : list MockAgent) fuel w r :
  flow_loop fuel agents 0 [] w = Some r ->
  cursor r <= length agents
  /\ length (executed r) <= fuel
  /\ walks 0 (executed r)
  /\ Forall (fun j => j < length agents) (executed r)
  /\ match exit r with
     | SequenceEnd => cursor r = length agents
     | _ => last (executed r) = Some (cursor r)
     end.
Proof.
  intros Hrun.
  apply flow_loop_shape in Hrun as (Hle & ex & Hex & Hlen & Hw & Hall & Hexit).
  simpl in Hex, Hle. subst ex.
  repeat split; auto; try lia.
  destruct (exit r); try exact Hexit. lia.
Qed.

(** X6. An agent that keeps returning a string that is none of the
    four signals stalls the loop: the cursor stays on it, and no
    number of calls ends the run. *)
Theorem loop_stalls_on_unknown_result (agents : list MockAgent) i agent :
  agents !! i = Some agent ->
  (forall w, exists s, fst (execute agent w) = Returned s
                       /\ s ∉ control_signals) ->
  forall fuel trace w, flow_loop fuel agents i trace w = None.
Proof.
  intros Ha Hres. induction fuel as [|fuel IH]; intros trace w; simpl;
    rewrite Ha; [reflexivity|].
  unfold iteration.
  destruct (Hres (announce agent w)) as (s & Hs & Hnot).
  destruct (execute agent (announce agent w)) as [[s'|e] w2]; simpl in Hs;
    [|discriminate].
  inversion Hs; subst s'.
  assert (H1 : String.eqb s "FLOW_COMPLETE" = false).
  { apply String.eqb_neq. intros ->. apply Hnot. decide_goal. }
  assert (H2 : String.eqb s "ERROR_STATE" = false).
  { apply String.eqb_neq. intros ->. apply Hnot. decide_goal. }
  assert (H3 : String.eqb s "NEXT_STATE" = false).
  { apply String.eqb_neq. intros ->. apply Hnot. decide_goal. }
  assert (H4 : String.eqb s "AWAIT_SELECTION" = false).
  { apply String.eqb_neq. intros ->. apply Hnot. decide_goal. }
  rewrite H1, H2, H3, H4. simpl. apply IH.
Qed.

(** The rule of the loop: a property of cursor and world that every
    continuing iteration keeps holds where the loop is left, either at
    the end of the sequence or before the iteration that broke out. *)
Lemma flow_loop_rule (agents : list MockAgent) (Inv : nat -> world -> Prop) :
  (forall a i w j w', agents !! i = Some a -> Inv i w ->
                      iteration a i w = (Next j, w') -> Inv j w') ->
  forall fuel i trace w r,
    Inv i w -> flow_loop fuel agents i trace w = Some r ->
    (exit r = SequenceEnd /\ agents !! cursor r = None /\ Inv (cursor r) (final r))
    \/ (exists a w0, agents !! cursor r = Some a /\ Inv (cursor r) w0
                     /\ iteration a (cursor r) w0 = (Break (exit r), final r)).
Proof.
  intros Hstep. induction fuel as [|fuel IH]; intros i trace w r Hinv Hrun.
  - simpl in Hrun. destruct (agents !! i) eqn:Ha; [discriminate|].
    inversion Hrun; subst. left. auto.
  - simpl in Hrun. destruct (agents !! i) as [agent|] eqn:Ha.
    + destruct (iteration agent i w) as [[j|how] w'] eqn:Hit.
      * eapply IH; [|exact Hrun]. eapply Hstep; eauto.
      * inversion Hrun; subst. right. exists agent, w. auto.
    + inversion Hrun; subst. left. auto.
Qed.

(** X7. The way the loop is left tells what the last agent did: the
    completion [break] is taken only after an agent returned
    FLOW_COMPLETE, the error [break] only after one returned
    ERROR_STATE, the except clause only after one raised, with the
    exception it raised; the agent is the one under the cursor, and
    the loop is never left that way without calling an agent. *)
Theorem loop_exit_reports_last_result (agents : list MockAgent) fuel w r :
  flow_loop fuel agents 0 [] w = Some r ->
  exit r <> SequenceEnd ->
  exists agent w0,
    agents !! cursor r = Some agent
    /\ final r = snd (iteration agent (cursor r) w0)
    /\ match exit r with
       | FlowComplete => result_of agent w0 = Returned "FLOW_COMPLETE"
       | ErrorState => result_of agent w0 = Returned "ERROR_STATE"
       | UnhandledException e => result_of agent w0 = Raised e
       | SequenceEnd => False
       end.
Proof.
  intros Hrun Hexit.
  destruct (flow_loop_rule agents (fun _ _ => True)
              ltac:(auto) fuel 0 [] w r I Hrun)
    as [(He & _)|(a & w0 & Ha & _ & Hit)]; [contradiction|].
  exists a, w0. split; [exact Ha|]. split; [rewrite Hit; reflexivity|].
  unfold iteration in Hit. unfold result_of.
  destruct (execute a (announce a w0)) as [[s|e] w2]; cbn [fst].
  - destruct (String.eqb s "FLOW_COMPLETE") eqn:E1.
    + inversion Hit as [[He Hw]]. apply String.eqb_eq in E1. subst s.
      reflexivity.
    + destruct (String.eqb s "ERROR_STATE") eqn:E2.
      * inversion Hit as [[He Hw]]. apply String.eqb_eq in E2. subst s.
        reflexivity.
      * destruct (_ || _); discriminate.
  - inversion Hit as [[He Hw]]. reflexivity.
Qed.

(** ** What an agent does to a well-formed state *)

Lemma truthy_nonempty s : s <> "" -> truthy (PStr s) = true.
Proof. destruct s; [contradiction|reflexivity]. Qed.

(** Either the agent raises and leaves the world as it was, or it
    returns ERROR_STATE and leaves the attributes as they were, or it
    returns another signal after assigning a true value to each name
    of [writes]. *)
Lemma execute_effect py_repr c nm w :
  well_formed w ->
  match execute (new py_repr c nm) w with
  | (Raised _, w') => w' = w
  | (Returned s, w') =>
      (s = "ERROR_STATE" /\ attrs w' = attrs w)
      \/ (s <> "ERROR_STATE"
          /\ exists entries,
               map fst entries = writes c
               /\ Forall (fun e => truthy (snd e) = true) entries
               /\ attrs w' = assign_all (attrs w) entries)
  end.
Proof.
  intros Hwf.
  read_field Hwf "interest_area" v1 H1.
  read_field Hwf "suggested_streams" v2 H2.
  read_field Hwf "user_location" v3 H3.
  read_field Hwf "target_stream" v4 H4.
  read_field Hwf "college_results" v5 H5.
  read_field Hwf "criteria_details" v6 H6.
  read_field Hwf "reviewer_notes" v7 H7.
  destruct c; cbn [new execute class_execute writes].
  - destruct (InterestAgent_runs nm w Hwf) as [l ->].
    right. split; [discriminate|]. eexists [(_, _)].
    repeat split. repeat constructor.
  - pose proof (StreamResearchAgent_runs nm w Hwf v1 H1) as Hr.
    destruct (truthy v1); [destruct Hr as [l ->]|rewrite Hr; left; auto].
    right. split; [discriminate|]. eexists [(_, _)].
    repeat split. repeat constructor.
  - destruct (LocationAgent_runs nm w Hwf) as [l ->].
    right. split; [discriminate|]. eexists [(_, _); (_, _)].
    repeat split. repeat constructor.
  - pose proof (CollegeResearchAgent_runs nm w Hwf v4 v3 H4 H3) as Hr.
    destruct (truthy v4 && truthy v3); [|rewrite Hr; left; auto].
    destruct (getitem v3 "city") as [x|e];
      [destruct (getitem v3 "state") as [y|e]|]; try (rewrite Hr; reflexivity).
    destruct Hr as [l ->].
    right. split; [discriminate|]. eexists [(_, _)].
    repeat split. repeat constructor.
  - pose proof (CriteriaAgent_runs nm w Hwf v5 v4 H5 H4) as Hr.
    destruct (truthy v5 && truthy v4); [destruct Hr as [l ->]|rewrite Hr; left; auto].
    right. split; [discriminate|]. eexists [(_, _)].
    repeat split. repeat constructor.
  - destruct (ReviewerAgent_runs nm w Hwf) as [l ->].
    right. split; [discriminate|]. eexists [(_, _)].
    repeat split. repeat constructor.
  - pose proof (SummaryAgent_runs nm w Hwf py_repr v1 v4 v2 v3 v5 v6 v7
                  H1 H4 H2 H3 H5 H6 H7) as Hr.
    destruct (getitem v3 "city") as [x|e];
      [destruct (getitem v3 "state") as [y|e]|]; try (rewrite Hr; reflexivity).
    destruct Hr as [l ->].
    right. split; [discriminate|]. eexists [(_, _)].
    repeat split. constructor; [|constructor].
    apply truthy_nonempty, summary_text_not_empty.
Qed.

Lemma assign_all_well_formed entries :
  forall w l, well_formed w -> "update_state" ∉ map fst entries ->
              well_formed (World (assign_all (attrs w) entries) l).
Proof.
  induction entries as [|[k v] entries IH]; intros w l Hwf Hk; [exact Hwf|].
  cbn [map fst] in Hk. apply not_elem_of_cons in Hk as [Hne Hk].
  assert (Hwf' : well_formed (World (<[k := v]> (attrs w)) l))
    by (apply well_formed_insert; [exact Hwf|congruence]).
  exact (IH (World (<[k := v]> (attrs w)) l) l Hwf' Hk).
Qed.

(** X8. On a well-formed state the [execute] of every class leaves the
    object well formed and leaves every attribute outside the fields of
    [writes] as it was, whatever it returns or raises. *)
Theorem agent_keeps_other_fields (py_repr : pyval -> string)
    (c : agent_class) (nm : string) (w : world) :
  well_formed w ->
  well_formed (snd (execute (new py_repr c nm) w))
  /\ forall k, k ∉ writes c ->
       attrs (snd (execute (new py_repr c nm) w)) !! k = attrs w !! k.
Proof.
  intros Hwf. pose proof (execute_effect py_repr c nm w Hwf) as He.
  destruct (execute (new py_repr c nm) w) as [[s|e] w']; cbn [snd].
  - destruct He as [(_ & Heq)|(_ & entries & Hk & _ & Heq)].
    + split; [|intros k _; rewrite Heq; reflexivity].
      destruct Hwf as [Hf Hm]. split; rewrite Heq; assumption.
    + split.
      * destruct w' as [a l]. cbn [attrs] in Heq. subst a.
        apply assign_all_well_formed; [exact Hwf|].
        rewrite Hk. destruct c; decide_goal.
      * intros k Hnot. rewrite Heq. apply assign_all_other.
        rewrite Hk. exact Hnot.
  - subst w'. auto.
Qed.

(** X9. All or nothing: on a well-formed state an agent that raises
    changes nothing at all, one that returns ERROR_STATE changes no
    attribute, and one that returns any other signal has set every
    field of [writes] to a value that is neither [None] nor empty. *)
Theorem agent_writes_all_or_nothing (py_repr : pyval -> string)
    (c : agent_class) (nm : string) (w : world) :
  well_formed w ->
  match execute (new py_repr c nm) w with
  | (Raised _, w') => w' = w
  | (Returned s, w') =>
      if String.eqb s "ERROR_STATE" then attrs w' = attrs w
      else Forall (fun f => exists v, attrs w' !! f = Some v /\ truthy v = true)
                  (writes c)
  end.
Proof.
  intros Hwf. pose proof (execute_effect py_repr c nm w Hwf) as He.
  destruct (execute (new py_repr c nm) w) as [[s|e] w']; [|exact He].
  destruct He as [(-> & Heq)|(Hs & entries & Hk & Ht & Heq)]; [exact Heq|].
  apply String.eqb_neq in Hs. rewrite Hs. rewrite Heq, <- Hk.
  assert (Hnd : NoDup (map fst entries)) by (rewrite Hk; destruct c; decide_goal).
  apply Forall_forall. intros f Hf.
  apply list_elem_of_In, in_map_iff in Hf as ([k v] & <- & Hin).
  exists v. split.
  - apply assign_all_last; [exact Hnd|]. apply list_elem_of_In. exact Hin.
  - rewrite Forall_forall in Ht. apply (Ht (k, v)). apply list_elem_of_In. exact Hin.
Qed.

(** X10. SummaryAgent completes exactly when [user_location] is a dict
    that holds both [city] and [state]; no other field has to be set. *)
Theorem summary_agent_needs_only_location (py_repr : pyval -> string)
    (nm : string) (w : world) (u : pyval) :
  well_formed w -> attrs w !! "user_location" = Some u ->
  fst (execute (new py_repr SummaryAgent nm) w) = Returned "FLOW_COMPLETE"
  <-> exists items city state,
        u = PDict items /\ dict_get items "city" = Some city
        /\ dict_get items "state" = Some state.
Proof.
  intros Hwf Hu.
  read_field Hwf "interest_area" v1 H1.
  read_field Hwf "suggested_streams" v2 H2.
  read_field Hwf "target_stream" v4 H4.
  read_field Hwf "college_results" v5 H5.
  read_field Hwf "criteria_details" v6 H6.
  read_field Hwf "reviewer_notes" v7 H7.
  pose proof (SummaryAgent_runs nm w Hwf py_repr v1 v4 v2 u v5 v6 v7
                H1 H4 H2 Hu H5 H6 H7) as Hr.
  cbn [new execute class_execute].
  destruct u as [|s|items]; cbn [getitem] in Hr.
  - rewrite Hr. split; [discriminate|]. intros (? & ? & ? & ? & _). discriminate.
  - rewrite Hr. split; [discriminate|]. intros (? & ? & ? & ? & _). discriminate.
  - destruct (dict_get items "city") as [x|] eqn:Ec.
    + destruct (dict_get items "state") as [y|] eqn:Es.
      * destruct Hr as [l ->]. split; [eauto 8|reflexivity].
      * rewrite Hr. split; [discriminate|].
        intros (? & ? & ? & Heq & _ & Hs). inversion Heq; subst.
        rewrite Es in Hs. discriminate.
    + rewrite Hr. split; [discriminate|].
      intros (? & ? & ? & Heq & Hc & _). inversion Heq; subst.
      rewrite Ec in Hc. discriminate.
Qed.

(** X11. The test of CollegeResearchAgent covers absent inputs only:
    it returns ERROR_STATE exactly when [target_stream] or
    [user_location] is [None] or empty, and it raises exactly when both
    are set and [user_location] is not a dict with [city] and [state]
    (a non-empty string, or a dict that lacks one of the keys). *)
Theorem college_agent_test_misses_malformed_location (py_repr : pyval -> string)
    (nm : string) (w : world) (t u : pyval) :
  well_formed w ->
  attrs w !! "target_stream" = Some t -> attrs w !! "user_location" = Some u ->
  (fst (execute (new py_repr CollegeResearchAgent nm) w) = Returned "ERROR_STATE"
   <-> truthy t = false \/ truthy u = false)
  /\ ((exists e, fst (execute (new py_repr CollegeResearchAgent nm) w) = Raised e)
      <-> truthy t = true /\ truthy u = true
          /\ forall items, u = PDict items ->
               dict_get items "city" = None \/ dict_get items "state" = None).
Proof.
  intros Hwf Ht Hu.
  pose proof (CollegeResearchAgent_runs nm w Hwf t u Ht Hu) as Hr.
  cbn [new execute class_execute].
  destruct (truthy t) eqn:Et; cbn [andb] in Hr.
  - destruct (truthy u) eqn:Eu.
    + destruct u as [|s|items]; cbn [getitem] in Hr.
      * discriminate Eu.
      * rewrite Hr. split.
        -- split; [discriminate|]. intros [?|?]; discriminate.
        -- split; [|eauto]. intros _. repeat split. discriminate.
      * destruct (dict_get items "city") as [x|] eqn:Ec;
          [destruct (dict_get items "state") as [y|] eqn:Es|].
        -- destruct Hr as [l ->]. split.
           ++ split; [discriminate|]. intros [?|?]; discriminate.
           ++ split; [intros [e He]; discriminate|].
              intros (_ & _ & H). destruct (H items eq_refl); congruence.
        -- rewrite Hr. split.
           ++ split; [discriminate|]. intros [?|?]; discriminate.
           ++ split; [|eauto]. intros _. repeat split.
              intros ? Heq. inversion Heq; subst. auto.
        -- rewrite Hr. split.
           ++ split; [discriminate|]. intros [?|?]; discriminate.
           ++ split; [|eauto]. intros _. repeat split.
              intros ? Heq. inversion Heq; subst. auto.
    + rewrite Hr. split; [split; auto|].
      split; [intros [e He]; discriminate|]. intros (_ & ? & _). discriminate.
  - rewrite Hr. split; [split; auto|].
    split; [intros [e He]; discriminate|]. intros (? & _). discriminate.
Qed.

(** ** Nothing is ever taken away *)

Lemma grows_refl w : grows w w.
Proof. split; [auto|]. exists []. rewrite app_nil_r. reflexivity. Qed.

Lemma grows_trans w1 w2 w3 : grows w1 w2 -> grows w2 w3 -> grows w1 w3.
Proof.
  intros [Ha [l Hl]] [Ha' [l' Hl']]. split; [auto|].
  exists (l ++ l'). rewrite Hl', Hl, app_assoc. reflexivity.
Qed.

Lemma keeps_ret {A} (a : A) : keeps (ret a).
Proof. intros w. apply grows_refl. Qed.

Lemma keeps_raise {A} e : keeps (raise (A := A) e).
Proof. intros w. apply grows_refl. Qed.

Lemma keeps_bind {A B} (c : M A) (k : A -> M B) :
  keeps c -> (forall a, keeps (k a)) -> keeps (bind c k).
Proof.
  intros Hc Hk w. unfold bind. specialize (Hc w).
  destruct (c w) as [[a|e] w']; [|exact Hc].
  eapply grows_trans; [exact Hc|apply Hk].
Qed.

Lemma keeps_emit lvl name msg : keeps (emit lvl name msg).
Proof. intros w. split; [auto|]. eexists. reflexivity. Qed.

Lemma keeps_getattr f : keeps (CareerState.getattr f).
Proof.
  intros w. unfold CareerState.getattr.
  destruct (attrs w !! f); apply grows_refl.
Qed.

Lemma keeps_subscript v key : keeps (subscript v key).
Proof. intros w. apply grows_refl. Qed.

Lemma keeps_update_state kwargs :
  Forall (fun e => ordinary (fst e) = true) kwargs ->
  keeps (CareerState.update_state kwargs).
Proof.
  intros Hord w. rewrite update_state_result by exact Hord.
  cbn [snd]. split; [|eauto].
  cbn [attrs]. generalize (List.filter (fun e => accepted (attrs w) (fst e)) kwargs).
  intros entries. generalize (attrs w).
  induction entries as [|[k' v'] entries IH]; intros m k Hs; [exact Hs|].
  cbn [assign_all foldl fst snd]. apply IH.
  rewrite lookup_insert_is_Some. destruct (decide (k' = k)); auto.
Qed.

Lemma keeps_call_update_state kwargs :
  Forall (fun e => ordinary (fst e) = true) kwargs ->
  keeps (CareerState.call_update_state kwargs).
Proof.
  intros Hord w. unfold CareerState.call_update_state.
  destruct (attrs w !! "update_state"); [apply grows_refl|].
  apply keeps_update_state. exact Hord.
Qed.

Ltac keeps_all :=
  repeat first
    [ apply keeps_bind; [|intros ?]
    | apply keeps_ret
    | apply keeps_emit
    | apply keeps_getattr
    | apply keeps_subscript
    | apply keeps_call_update_state; repeat constructor
    | match goal with
      | |- keeps (if ?b then _ else _) => destruct b
      end ].

Lemma keeps_execute py_repr c nm : keeps (execute (new py_repr c nm)).
Proof.
  destruct c; cbn [new execute class_execute];
    unfold InterestAgent_execute, StreamResearchAgent_execute,
      LocationAgent_execute, CollegeResearchAgent_execute,
      CriteriaAgent_execute, ReviewerAgent_execute, SummaryAgent_execute;
    keeps_all.
Qed.

Lemma keeps_iteration agent i w :
  keeps (execute agent) -> grows w (snd (iteration agent i w)).
Proof.
  intros Hk. unfold iteration.
  assert (Ha : grows w (announce agent w)) by apply keeps_emit.
  specialize (Hk (announce agent w)).
  destruct (execute agent (announce agent w)) as [[s|e] w2]; cbn [snd] in Hk.
  - destruct (String.eqb s "FLOW_COMPLETE");
      [|destruct (String.eqb s "ERROR_STATE"); [|destruct (_ || _)]];
      cbn [snd];
      repeat (eapply grows_trans; [eassumption|]);
      first [apply grows_refl | apply keeps_emit].
  - cbn [snd]. eapply grows_trans; [exact Ha|].
    eapply grows_trans; [exact Hk|]. apply keeps_emit.
Qed.

(** X12. Nothing is ever taken away, in any world, well formed or not:
    [update_state] on keys that do not begin with two underscores, the
    [execute] of every class and every run of the loop over the
    program's agents leave every attribute that the object had in
    place (with its old or a new value) and only append to the log. *)
Theorem nothing_is_removed (py_repr : pyval -> string) :
  (forall kwargs w,
     Forall (fun e => ordinary (fst e) = true) kwargs ->
     grows w (snd (CareerState.update_state kwargs w)))
  /\ (forall c nm w, grows w (snd (execute (new py_repr c nm) w)))
  /\ (forall specs fuel w r,
        flow_loop fuel (instantiate py_repr specs) 0 [] w = Some r ->
        grows w (final r)).
Proof.
  split; [intros kwargs w Hord; apply keeps_update_state; exact Hord|].
  split; [apply keeps_execute|].
  intros specs fuel w r Hrun.
  assert (Hagent : forall a i, instantiate py_repr specs !! i = Some a ->
                               keeps (execute a)).
  { intros a i Ha. unfold instantiate in Ha. rewrite list_lookup_fmap in Ha.
    destruct (specs !! i) as [[c nm]|]; [|discriminate].
    inversion Ha. apply keeps_execute. }
  destruct (flow_loop_rule (instantiate py_repr specs) (fun _ w0 => grows w w0))
    with (fuel := fuel) (i := 0) (trace := @nil nat) (w := w) (r := r)
    as [(_ & _ & Hg)|(a & w0 & Ha & Hg & Hit)].
  - intros a i w1 j w' Ha Hg Hit. eapply grows_trans; [exact Hg|].
    pose proof (keeps_iteration a i w1 (Hagent a i Ha)) as Hk.
    rewrite Hit in Hk. exact Hk.
  - apply grows_refl.
  - exact Hrun.
  - exact Hg.
  - eapply grows_trans; [exact Hg|].
    pose proof (keeps_iteration a (cursor r) w0 (Hagent a _ Ha)) as Hk.
    rewrite Hit in Hk. exact Hk.
Qed.

(** ** Runs from a fresh state *)

Section FreshRuns.

Variable py_repr : pyval -> string.
Variable specs : list (agent_class * string).

Lemma instantiate_lookup i a :
  instantiate py_repr specs !! i = Some a ->
  exists c nm, specs !! i = Some (c, nm) /\ a = new py_repr c nm.
Proof.
  unfold instantiate. rewrite list_lookup_fmap.
  destruct (specs !! i) as [[c nm]|]; [|discriminate].
  intros H. inversion H. eauto.
Qed.

Lemma iteration_next_inv agent i w j w' :
  iteration agent i w = (Next j, w') ->
  exists s, execute agent (announce agent w) = (Returned s, w')
            /\ s <> "FLOW_COMPLETE" /\ s <> "ERROR_STATE".
Proof.
  unfold iteration.
  destruct (execute agent (announce agent w)) as [[s|e] w2]; [|discriminate].
  destruct (String.eqb s "FLOW_COMPLETE") eqn:E1; [discriminate|].
  destruct (String.eqb s "ERROR_STATE") eqn:E2; [discriminate|].
  apply String.eqb_neq in E1, E2.
  destruct (_ || _); intros H; inversion H; subst; eauto.
Qed.

Lemma fresh_invariant_step a i w j w' :
  instantiate py_repr specs !! i = Some a -> fresh_invariant specs i w ->
  iteration a i w = (Next j, w') -> fresh_invariant specs j w'.
Proof.
  intros Ha (Hwf & Hfs & Hloc) Hit.
  destruct (instantiate_lookup i a Ha) as (c & nm & Hspec & ->).
  assert (Hwfa : well_formed (announce (new py_repr c nm) w))
    by (apply well_formed_log; exact Hwf).
  pose proof (iteration_cursor (new py_repr c nm) i w) as Hcur.
  rewrite Hit in Hcur. cbn [fst] in Hcur.
  destruct (iteration_next_inv _ _ _ _ _ Hit) as (s & Hex & Hs1 & Hs2).
  pose proof (execute_classified nm _ Hwfa py_repr c) as Hcls.
  pose proof (agent_keeps_other_fields py_repr c nm _ Hwfa) as [Hwf' Hframe].
  rewrite Hex in Hcls, Hwf', Hframe. cbn [snd] in Hwf', Hframe.
  destruct Hcls as [(Hsig & Hc & _ & Hfs')|[(-> & _)|(-> & _)]];
    [|contradiction|contradiction].
  assert (Hj : j = i + 1).
  { unfold iteration in Hit. rewrite Hex in Hit.
    destruct Hsig as [->| ->]; inversion Hit; reflexivity. }
  subst j. split; [exact Hwf'|]. split; [rewrite Hfs'; exact Hfs|].
  destruct (decide (c = LocationAgent)) as [->|Hnl].
  - right. split.
    + destruct (LocationAgent_runs nm _ Hwfa) as [l Hl].
      cbn [new execute class_execute] in Hex. rewrite Hl in Hex.
      inversion Hex; subst. cbn [attrs].
      rewrite lookup_insert_ne by discriminate. apply lookup_insert_eq.
    + exists i, nm. split; [lia|exact Hspec].
  - assert (Hu : attrs w' !! "user_location" = attrs w !! "user_location").
    { apply (Hframe "user_location"). destruct c; try decide_goal.
      contradiction. }
    destruct Hloc as [(Hnone & Hno)|(Hmock & j & nm' & Hj & Hspec')].
    + left. split; [rewrite Hu; exact Hnone|].
      intros j nm' Hj. destruct (decide (j = i)) as [->|Hne].
      * rewrite Hspec. intros Heq. inversion Heq. contradiction.
      * apply Hno. lia.
    + right. split; [rewrite Hu; exact Hmock|].
      exists j, nm'. split; [lia|exact Hspec'].
Qed.

Lemma fresh_invariant_init l :
  fresh_invariant specs 0 (World CareerState.__init__ l).
Proof.
  split; [apply well_formed_init|]. split; [reflexivity|].
  left. split; [reflexivity|]. intros j nm Hj. lia.
Qed.

(** Where a run from a fresh state is left. *)
Lemma fresh_run_exit fuel l r :
  flow_loop fuel (instantiate py_repr specs) 0 [] (World CareerState.__init__ l)
    = Some r ->
  (exit r = SequenceEnd /\ fresh_invariant specs (cursor r) (final r))
  \/ (exists c nm w0,
        specs !! cursor r = Some (c, nm)
        /\ fresh_invariant specs (cursor r) w0
        /\ iteration (new py_repr c nm) (cursor r) w0 = (Break (exit r), final r)).
Proof.
  intros Hrun.
  destruct (flow_loop_rule (instantiate py_repr specs) (fresh_invariant specs)
              fresh_invariant_step fuel 0 [] _ r (fresh_invariant_init l) Hrun)
    as [(He & _ & Hinv)|(a & w0 & Ha & Hinv & Hit)]; [auto|].
  destruct (instantiate_lookup _ a Ha) as (c & nm & Hspec & ->).
  right. eauto 8.
Qed.

End FreshRuns.

(** The agent that ends a run from a fresh state. *)
Lemma fresh_run_last_agent (py_repr : pyval -> string)
    (specs : list (agent_class * string)) (fuel : nat)
    (previous_log : list log_record) (r : flow_result) :
  flow_loop fuel (instantiate py_repr specs) 0 []
            (World CareerState.__init__ previous_log) = Some r ->
  (forall e, exit r = UnhandledException e ->
     e = TypeError Subscript PNone
     /\ (exists nm, specs !! cursor r = Some (SummaryAgent, nm))
     /\ forall j nm, j < cursor r -> specs !! j <> Some (LocationAgent, nm))
  /\ (exit r = FlowComplete ->
        (exists nm, specs !! cursor r = Some (SummaryAgent, nm))
        /\ exists j nm, j < cursor r /\ specs !! j = Some (LocationAgent, nm)).
Proof.
  intros Hrun.
  destruct (fresh_run_exit py_repr specs fuel previous_log r Hrun)
    as [(He & _)|(c & nm & w0 & Hspec & (Hwf & Hfs & Hloc) & Hit)].
  { split; [intros e H|intros H]; rewrite H in He; discriminate. }
  assert (Hwfa : well_formed (announce (new py_repr c nm) w0))
    by (apply well_formed_log; exact Hwf).
  pose proof (execute_classified nm _ Hwfa py_repr c) as Hcls.
  unfold iteration in Hit.
  destruct (execute (new py_repr c nm) (announce (new py_repr c nm) w0))
    as [[s|e0] w2] eqn:Hex.
  - split.
    + intros e He. rewrite He in Hit.
      destruct (String.eqb s "FLOW_COMPLETE"); [discriminate|].
      destruct (String.eqb s "ERROR_STATE"); [discriminate|].
      destruct (_ || _); discriminate.
    + intros He. rewrite He in Hit.
      destruct (String.eqb s "FLOW_COMPLETE") eqn:E1;
        [|destruct (String.eqb s "ERROR_STATE"); [discriminate|];
          destruct (_ || _); discriminate].
      apply String.eqb_eq in E1. subst s.
      destruct Hcls as [([?|?] & _)|[(? & _)|(_ & -> & _)]]; try discriminate.
      split; [eauto|].
      destruct Hloc as [(Hnone & _)|(_ & Hbefore)]; [|exact Hbefore].
      exfalso.
      pose proof (proj1 (summary_agent_needs_only_location py_repr nm _ PNone
                           Hwfa Hnone)) as Hneed.
      rewrite Hex in Hneed. destruct (Hneed eq_refl) as (? & ? & ? & ? & _).
      discriminate.
  - split; [|intros He; rewrite He in Hit; discriminate].
    intros e He. rewrite He in Hit. inversion Hit; subst e0.
    destruct Hcls as (_ & Hc & u & Hu & Hget).
    destruct Hloc as [(Hnone & Hno)|(Hmock & _)].
    + cbn [announce emit snd attrs] in Hu. rewrite Hnone in Hu.
      inversion Hu; subst u.
      split; [destruct Hget as [Hg|Hg]; inversion Hg; reflexivity|].
      split; [|exact Hno].
      destruct Hc as [->| ->]; [|eauto].
      exfalso.
      destruct (well_formed_field _ "target_stream" Hwf ltac:(decide_goal))
        as [t Ht].
      pose proof (CollegeResearchAgent_runs nm _ Hwfa t PNone Ht Hnone) as Hr.
      rewrite andb_false_r in Hr.
      cbn [new execute class_execute] in Hex. rewrite Hr in Hex. discriminate.
    + exfalso. cbn [announce emit snd attrs] in Hu. rewrite Hmock in Hu.
      inversion Hu; subst u. destruct Hget as [Hg|Hg]; discriminate.
Qed.

(** X13. From a fresh state, whatever the sequence of the program's
    agents: the only fault the except clause ever meets is the
    TypeError of [None['city']], raised by a SummaryAgent that no
    LocationAgent precedes (CollegeResearchAgent never raises there);
    and the loop is left through FLOW_COMPLETE only by a SummaryAgent
    that some LocationAgent precedes. *)
Theorem fresh_runs_fault_only_in_summary (py_repr : pyval -> string)
    (specs : list (agent_class * string)) (fuel : nat)
    (previous_log : list log_record) (r : flow_result) :
  flow_loop fuel (instantiate py_repr specs) 0 []
            (World CareerState.__init__ previous_log) = Some r ->
  match exit r with
  | UnhandledException e =>
      e = TypeError Subscript PNone
      /\ (exists nm, specs !! cursor r = Some (SummaryAgent, nm))
      /\ forall j nm, j < cursor r -> specs !! j <> Some (LocationAgent, nm)
  | FlowComplete =>
      (exists nm, specs !! cursor r = Some (SummaryAgent, nm))
      /\ exists j nm, j < cursor r /\ specs !! j = Some (LocationAgent, nm)
  | ErrorState | SequenceEnd =>
      attrs (final r) !! "final_summary" = Some PNone
  end.
Proof.
  intros Hrun.
  pose proof (fresh_run_last_agent py_repr specs fuel previous_log r Hrun)
    as [Hfault Hdone].
  destruct (fresh_run_exit py_repr specs fuel previous_log r Hrun)
    as [(He & _ & Hfs & _)|(c & nm & w0 & Hspec & (Hwf & Hfs & _) & Hit)].
  { rewrite He. exact Hfs. }
  destruct (exit r) as [| |e|] eqn:He; auto.
  - unfold iteration in Hit.
    assert (Hwfa : well_formed (announce (new py_repr c nm) w0))
      by (apply well_formed_log; exact Hwf).
    pose proof (execute_classified nm _ Hwfa py_repr c) as Hcls.
    destruct (execute (new py_repr c nm) (announce (new py_repr c nm) w0))
      as [[s|e0] w2]; [|discriminate].
    destruct (String.eqb s "FLOW_COMPLETE"); [discriminate|].
    destruct (String.eqb s "ERROR_STATE") eqn:E2;
      [|destruct (_ || _); discriminate].
    apply String.eqb_eq in E2. subst s. inversion Hit; subst. cbn [attrs].
    destruct Hcls as [([?|?] & _)|[(_ & ->)|(? & _)]]; try discriminate.
    exact Hfs.
  - exfalso. eapply iteration_never_ends. exact Hit.
Qed.

(** X14. A sequence without a SummaryAgent never produces a summary:
    run on a fresh state it raises nothing, ends on ERROR_STATE or at
    the end of the sequence, and prints the abort notice, also when
    every agent succeeded and when the sequence is empty. *)
Theorem no_summary_agent_prints_abort (py_repr : pyval -> string)
    (specs : list (agent_class * string)) (previous_log : list log_record) :
  (forall nm, (SummaryAgent, nm) ∉ specs) ->
  exists r,
    run_flow py_repr (length specs) (instantiate py_repr specs)
             (World CareerState.__init__ previous_log)
      = Some (r, Returned abort_notice)
    /\ (exit r = ErrorState \/ exit r = SequenceEnd).
Proof.
  intros Hno. unfold run_flow.
  destruct (flow_loop_concrete py_repr specs (length specs) 0 []
              (snd (emit INFO logger
                      [Lit "Starting Career Builder Helper Agentic Flow..."]
                      (World CareerState.__init__ previous_log))))
    as (r & Hr & Hpost); [apply well_formed_init|reflexivity|lia|].
  rewrite Hr.
  pose proof (fresh_run_last_agent py_repr specs _ _ r Hr)
    as [Hfault Hdone].
  assert (Hsum : forall nm, specs !! cursor r <> Some (SummaryAgent, nm)).
  { intros nm Hl. apply (Hno nm). eapply list_elem_of_lookup_2. exact Hl. }
  assert (Hexit : exit r = ErrorState \/ exit r = SequenceEnd).
  { destruct (exit r) as [| |e|] eqn:He; auto.
    - destruct (Hdone eq_refl) as [[nm Hl] _]. destruct (Hsum nm Hl).
    - destruct (Hfault e eq_refl) as (_ & [nm Hl] & _). destruct (Hsum nm Hl). }
  destruct (print_summary_after py_repr _ r Hpost) as (out & Hout & _ & Ha).
  rewrite Hout. cbn [fst].
  rewrite (Ha ltac:(destruct Hexit as [->| ->]; discriminate)).
  exists r. auto.
Qed.

(** ** Concrete runs for the further properties *)

(** X1, witness: on a fresh object the name [bogus] is refused, and
    still absent after a call that also sets a field. *)
Lemma update_state_leaves_other_names_witness :
  accepted (attrs (World CareerState.__init__ [])) "bogus" = false
  /\ attrs (snd (CareerState.update_state
                   [("interest_area", PStr "x"); ("bogus", PStr "y")]
                   (World CareerState.__init__ []))) !! "bogus"
     = attrs (World CareerState.__init__ []) !! "bogus".
Proof.
  split; [vm_compute; reflexivity|].
  apply (update_state_leaves_other_names
           [("interest_area", PStr "x"); ("bogus", PStr "y")]
           (World CareerState.__init__ []) "bogus").
  - repeat constructor.
  - right. vm_compute. reflexivity.
Defined.

(** X2, witness: in the same call the field is set. *)
Lemma update_state_applies_accepted_witness :
  attrs (snd (CareerState.update_state
                [("interest_area", PStr "x"); ("bogus", PStr "y")]
                (World CareerState.__init__ []))) !! "interest_area"
  = Some (PStr "x").
Proof.
  apply (update_state_applies_accepted
           [("interest_area", PStr "x"); ("bogus", PStr "y")]
           (World CareerState.__init__ []) "interest_area" (PStr "x")).
  - repeat constructor.
  - decide_goal.
  - apply list_elem_of_In. left. reflexivity.
  - vm_compute. reflexivity.
Defined.

(** X3, witness: the records of that call. *)
Lemma update_state_log_witness :
  log (snd (CareerState.update_state
              [("interest_area", PStr "x"); ("bogus", PStr "y")]
              (World CareerState.__init__ [])))
  = [unknown_key_warning "bogus";
     state_updated [("interest_area", PStr "x"); ("bogus", PStr "y")]].
Proof.
  rewrite (update_state_log [("interest_area", PStr "x"); ("bogus", PStr "y")]
             (World CareerState.__init__ []));
    [vm_compute; reflexivity|repeat constructor].
Defined.

(** X4, witness: the same call keeps the fresh object well formed. *)
Lemma update_state_keeps_well_formed_witness :
  well_formed (World CareerState.__init__ [])
  /\ well_formed (snd (CareerState.update_state
                         [("interest_area", PStr "x"); ("bogus", PStr "y")]
                         (World CareerState.__init__ []))).
Proof.
  split; [apply well_formed_init|].
  apply (proj2 (update_state_keeps_well_formed
                  [("interest_area", PStr "x"); ("bogus", PStr "y")]
                  (World CareerState.__init__ [])
                  ltac:(repeat constructor) (well_formed_init []))).
  decide_goal.
Defined.

(** X12, witness: that call on a fresh object. *)
Lemma nothing_is_removed_witness :
  grows (World CareerState.__init__ [])
        (snd (CareerState.update_state
                [("interest_area", PStr "x"); ("bogus", PStr "y")]
                (World CareerState.__init__ []))).
Proof.
  apply (proj1 (nothing_is_removed plain_repr)). repeat constructor.
Defined.

(** X15, witness: a field, then [__class__], then another field, on a
    fresh object: the first field is written, the second is not. *)
Lemma update_state_stops_at_class_entry_witness :
  CareerState.update_state
    [("interest_area", PStr "x"); ("__class__", PStr "y");
     ("target_stream", PStr "z")]
    (World CareerState.__init__ [])
  = (Raised (TypeError AsClass (PStr "y")),
     World (<["interest_area" := PStr "x"]> CareerState.__init__) []).
Proof.
  refine (eq_trans
            (update_state_stops_at_class_entry [("interest_area", PStr "x")]
               (PStr "y") [("target_stream", PStr "z")]
               (World CareerState.__init__ []) _) _).
  - repeat constructor.
  - vm_compute. reflexivity.
Defined.

(** X16, witness: a field is written, then [__dict__] replaces
    everything and the field is gone; of the two entries that follow,
    the one that the new dictionary knows is written into it. *)
Lemma update_state_replaces_instance_dict_witness :
  attrs (snd (CareerState.update_state
                [("interest_area", PStr "x");
                 ("__dict__", PDict [("a", PStr "1")]);
                 ("a", PStr "2"); ("b", PStr "3")]
                (World CareerState.__init__ []))) !! "interest_area"
  = None
  /\ log (snd (CareerState.update_state
                 [("interest_area", PStr "x");
                  ("__dict__", PDict [("a", PStr "1")]);
                  ("a", PStr "2"); ("b", PStr "3")]
                 (World CareerState.__init__ [])))
     = [unknown_key_warning "b";
        state_updated [("interest_area", PStr "x");
                       ("__dict__", PDict [("a", PStr "2")]);
                       ("a", PStr "2"); ("b", PStr "3")]].
Proof.
  destruct (update_state_replaces_instance_dict
              [("interest_area", PStr "x")] [("a", PStr "1")]
              [("a", PStr "2"); ("b", PStr "3")]
              (World CareerState.__init__ [])
              ltac:(repeat constructor) ltac:(repeat constructor))
    as (_ & Hattrs & Hlog).
  split; [exact (Hattrs "interest_area")|exact Hlog].
Defined.

(** The loop of the entry point on a fresh state. *)
Lemma canonical_loop py_repr :
  exists l,
    flow_loop 7 (agent_sequence py_repr) 0 [] (World CareerState.__init__ [])
    = Some (FlowResult FlowComplete 6 (seq 0 7) (World expected_state l)).
Proof. eexists. vm_compute. reflexivity. Qed.

(** A SummaryAgent alone, on a fresh state. *)
Lemma summary_alone_loop py_repr :
  exists l,
    flow_loop 1 (instantiate py_repr [(SummaryAgent, "A7_Summary")]) 0 []
              (World CareerState.__init__ [])
    = Some (FlowResult (UnhandledException (TypeError Subscript PNone)) 0 [0]
                       (World CareerState.__init__ l)).
Proof. eexists. vm_compute. reflexivity. Qed.

(** X5, witness: the loop of the entry point. *)
Lemma loop_never_skips_or_overruns_witness :
  exists r,
    flow_loop 7 (agent_sequence plain_repr) 0 [] (World CareerState.__init__ [])
      = Some r
    /\ cursor r <= length (agent_sequence plain_repr)
    /\ walks 0 (executed r).
Proof.
  destruct (canonical_loop plain_repr) as [l Hl].
  eexists. split; [exact Hl|].
  destruct (loop_never_skips_or_overruns _ _ _ _ Hl) as (H1 & _ & H2 & _).
  split; assumption.
Defined.

(** X6, witness: an agent whose [execute] returns "RETRY". *)
Lemma loop_stalls_on_unknown_result_witness :
  flow_loop 1000 [Agent "A0_Retry" (ret "RETRY")] 0 []
            (World CareerState.__init__ []) = None.
Proof.
  apply (loop_stalls_on_unknown_result
           [Agent "A0_Retry" (ret "RETRY")] 0 (Agent "A0_Retry" (ret "RETRY"))).
  - reflexivity.
  - intros w. exists "RETRY". split; [reflexivity|]. decide_goal.
Defined.

(** X7, witness: the loop of the entry point ends on the result of its
    seventh agent. *)
Lemma loop_exit_reports_last_result_witness :
  exists r agent w0,
    flow_loop 7 (agent_sequence plain_repr) 0 [] (World CareerState.__init__ [])
      = Some r
    /\ agent_sequence plain_repr !! cursor r = Some agent
    /\ result_of agent w0 = Returned "FLOW_COMPLETE".
Proof.
  destruct (canonical_loop plain_repr) as [l Hl].
  destruct (loop_exit_reports_last_result _ _ _ _ Hl)
    as (agent & w0 & Ha & _ & Hres); [discriminate|].
  eexists _, agent, w0. split; [exact Hl|]. split; [exact Ha|exact Hres].
Defined.

(** X8, witness: LocationAgent on a fresh state leaves [interest_area]
    alone. *)
Lemma agent_keeps_other_fields_witness :
  well_formed (World CareerState.__init__ [])
  /\ attrs (snd (execute (new plain_repr LocationAgent "A3_LocationCapture")
                         (World CareerState.__init__ []))) !! "interest_area"
     = attrs (World CareerState.__init__ []) !! "interest_area".
Proof.
  split; [apply well_formed_init|].
  apply (proj2 (agent_keeps_other_fields plain_repr LocationAgent
                  "A3_LocationCapture" (World CareerState.__init__ [])
                  (well_formed_init []))).
  decide_goal.
Defined.

(** X9, witness: InterestAgent on a fresh state. *)
Lemma agent_writes_all_or_nothing_witness :
  well_formed (World CareerState.__init__ [])
  /\ match execute (new plain_repr InterestAgent "A1_InterestCapture")
                   (World CareerState.__init__ []) with
     | (Raised _, w') => w' = World CareerState.__init__ []
     | (Returned s, w') =>
         if String.eqb s "ERROR_STATE"
         then attrs w' = attrs (World CareerState.__init__ [])
         else Forall (fun f => exists v, attrs w' !! f = Some v
                                         /\ truthy v = true)
                     (writes InterestAgent)
     end.
Proof.
  split; [apply well_formed_init|].
  apply (agent_writes_all_or_nothing plain_repr InterestAgent
           "A1_InterestCapture" (World CareerState.__init__ [])).
  apply well_formed_init.
Defined.

(** X10, witness: with the location set and every other field still
    [None], SummaryAgent completes. *)
Lemma summary_agent_needs_only_location_witness :
  well_formed (World (<["user_location" := mock_location]> CareerState.__init__) [])
  /\ fst (execute (new plain_repr SummaryAgent "A7_Summary")
                  (World (<["user_location" := mock_location]>
                            CareerState.__init__) []))
     = Returned "FLOW_COMPLETE".
Proof.
  assert (Hwf : well_formed
                  (World (<["user_location" := mock_location]>
                            CareerState.__init__) []))
    by (apply (well_formed_insert (World CareerState.__init__ []));
        [apply well_formed_init|discriminate]).
  split; [exact Hwf|].
  apply (proj2 (summary_agent_needs_only_location plain_repr "A7_Summary"
                  (World (<["user_location" := mock_location]>
                            CareerState.__init__) [])
                  mock_location Hwf (lookup_insert_eq _ _ _))).
  eexists _, _, _. split; [reflexivity|]. split; reflexivity.
Defined.

(** X11, witness: a stream and a location given as a string, not as a
    dict. *)
Lemma college_agent_test_misses_malformed_location_witness :
  exists e,
    fst (execute (new plain_repr CollegeResearchAgent "A4_CollegeSearch")
                 (World (<["user_location" := PStr "Berkeley"]>
                           (<["target_stream" := PStr "Biology"]>
                              CareerState.__init__)) []))
    = Raised e.
Proof.
  assert (Hwf : well_formed
                  (World (<["user_location" := PStr "Berkeley"]>
                            (<["target_stream" := PStr "Biology"]>
                               CareerState.__init__)) [])).
  { decide_goal. }
  apply (proj2 (proj2 (college_agent_test_misses_malformed_location plain_repr
                         "A4_CollegeSearch" _ (PStr "Biology") (PStr "Berkeley")
                         Hwf ltac:(vm_compute; reflexivity)
                         ltac:(vm_compute; reflexivity)))).
  split; [reflexivity|]. split; [reflexivity|]. intros items Heq. discriminate.
Defined.

(** X13, witness: a SummaryAgent alone. *)
Lemma fresh_runs_fault_only_in_summary_witness :
  exists r,
    flow_loop 1 (instantiate plain_repr [(SummaryAgent, "A7_Summary")]) 0 []
              (World CareerState.__init__ []) = Some r
    /\ exit r = UnhandledException (TypeError Subscript PNone)
    /\ exists nm, [(SummaryAgent, "A7_Summary")] !! cursor r
                  = Some (SummaryAgent, nm).
Proof.
  destruct (summary_alone_loop plain_repr) as [l Hl].
  pose proof (fresh_runs_fault_only_in_summary plain_repr
                [(SummaryAgent, "A7_Summary")] 1 [] _ Hl) as H.
  cbn [exit] in H. destruct H as (_ & Hnm & _).
  eexists. split; [exact Hl|]. split; [reflexivity|exact Hnm].
Defined.

(** X14, witness: InterestAgent and StreamResearchAgent both succeed,
    and the run prints the abort notice. *)
Lemma no_summary_agent_prints_abort_witness :
  exists r,
    run_flow plain_repr 2
             (instantiate plain_repr
                [(InterestAgent, "A1_InterestCapture");
                 (StreamResearchAgent, "A2_StreamResearch")])
             (World CareerState.__init__ [])
    = Some (r, Returned abort_notice).
Proof.
  destruct (no_summary_agent_prints_abort plain_repr
              [(InterestAgent, "A1_InterestCapture");
               (StreamResearchAgent, "A2_StreamResearch")] [])
    as (r & Hr & _).
  - intros nm Hin.
    repeat (apply elem_of_cons in Hin as [Hin|Hin]; [discriminate Hin|]).
    apply elem_of_nil in Hin. exact Hin.
  - exists r. exact Hr.
Defined.
